(** * Indexer bot: caption extraction, record store, ingestion and summaries

    A shallow embedding of [bot.py].  Python [str] values are sequences of
    Unicode code points and are modelled as [list N]; the SQLite table
    [media_files] is a list of rows in rowid order; the handlers thread the
    table (and the log) explicitly. *)

From Stdlib Require Import String Ascii DecimalString.
From Stdlib Require Import List NArith ZArith Bool Lia Permutation Sorted.
Import ListNotations.

Local Open Scope N_scope.
Local Open Scope list_scope.

(** ** Strings *)

(** A Python [str]: a sequence of code points. *)
Definition str := list N.

(** An ASCII literal of the source, as code points. *)
Definition lit (s : string) : str :=
  List.map N_of_ascii (list_ascii_of_string s).

Definition nl : N := 10.
Definition NL : str := [nl].

Fixpoint str_eqb (a b : str) : bool :=
  match a, b with
  | [], [] => true
  | x :: a', y :: b' => (x =? y) && str_eqb a' b'
  | _, _ => false
  end.

(** [str.isspace] on one code point; the same class is what [\s] matches in
    a [str] pattern and what [str.strip()] removes. *)
Definition isspace (c : N) : bool :=
  ((0x09 <=? c) && (c <=? 0x0D)) || ((0x1C <=? c) && (c <=? 0x20))
  || (c =? 0x85) || (c =? 0xA0) || (c =? 0x1680)
  || ((0x2000 <=? c) && (c <=? 0x200A))
  || (c =? 0x2028) || (c =? 0x2029) || (c =? 0x202F) || (c =? 0x205F)
  || (c =? 0x3000).

(** The class [[^\n]]. *)
Definition not_nl (c : N) : bool := negb (c =? nl).

Fixpoint take_while (p : N -> bool) (s : str) : str :=
  match s with
  | c :: s' => if p c then c :: take_while p s' else []
  | [] => []
  end.

Fixpoint drop_while (p : N -> bool) (s : str) : str :=
  match s with
  | c :: s' => if p c then drop_while p s' else s
  | [] => []
  end.

Definition lstrip (s : str) : str := drop_while isspace s.
Definition rstrip (s : str) : str := rev (drop_while isspace (rev s)).

(** [s.strip()] *)
Definition strip (s : str) : str := rstrip (lstrip s).

(** Python truthiness of a [str]. *)
Definition truthy (s : str) : bool :=
  match s with [] => false | _ :: _ => true end.

(** ** The patterns [marker\s*([^\n]+)] under [re.search]

    Every pattern of the source is a literal marker followed by
    [\s*([^\n]+)].  The matcher below is the backtracking matcher of [re]
    specialised to that shape: the literal, then the greedy [\s*] that gives
    characters back one at a time, then the greedy group. *)

(** The literal part: the text after [p] when [s] starts with [p]. *)
Fixpoint strip_prefix (p s : str) : option str :=
  match p, s with
  | [], _ => Some s
  | x :: p', y :: s' => if x =? y then strip_prefix p' s' else None
  | _ :: _, [] => None
  end.

(** The group [([^\n]+)] at [s]: the longest run without a newline, which
    must not be empty. *)
Definition capture_line (s : str) : option str :=
  match take_while not_nl s with
  | [] => None
  | g => Some g
  end.

(** [\s*([^\n]+)] at [s]: the star first takes every whitespace character it
    can (newlines included); when the group fails behind it, it retries with
    one character less. *)
Fixpoint spaces_then_capture (s : str) : option str :=
  match s with
  | c :: s' =>
      if isspace c then
        match spaces_then_capture s' with
        | Some g => Some g
        | None => capture_line s
        end
      else capture_line s
  | [] => capture_line []
  end.

(** One attempt of the whole pattern at the start of [s]; the result is
    [group(1)]. *)
Definition match_here (marker s : str) : option str :=
  match strip_prefix marker s with
  | Some rest => spaces_then_capture rest
  | None => None
  end.

(** [re.search(marker + r"\s*([^\n]+)", s)]: the first start position, from
    the left, at which the pattern matches; [None] when there is none. *)
Fixpoint re_search (marker s : str) : option str :=
  match match_here marker s with
  | Some g => Some g
  | None =>
      match s with
      | [] => None
      | _ :: s' => re_search marker s'
      end
  end.

(** [s.find(marker)]: the index of the first occurrence of [marker]. *)
Fixpoint index_of (marker s : str) : option nat :=
  match strip_prefix marker s with
  | Some _ => Some O
  | None =>
      match s with
      | [] => None
      | _ :: s' => option_map S (index_of marker s')
      end
  end.

(** ** The markers

    The code points of the literals as they stand in [bot.py], each in
    front of the common tail [\s*([^\n]+)].  The file holds the glyphs of
    the markers in a re-encoded form (every byte of their UTF-8 form read as
    one character); what is proved of the extractors in general depends on
    no property of these code points. *)

(** [video_pattern]: üéûÔ∏èùêìùê¢ùê≠ùê•ùêû ¬ª\s*([^\n]+) *)
Definition video_marker : str :=
  [0xF8FF; 0xFC; 0xE9; 0xFB; 0xD4; 0x220F; 0xE8; 0xF8FF; 0xF9; 0xEA; 0xEC;
   0xF8FF; 0xF9; 0xEA; 0xA2; 0xF8FF; 0xF9; 0xEA; 0x2260; 0xF8FF; 0xF9; 0xEA;
   0x2022; 0xF8FF; 0xF9; 0xEA; 0xFB; 0x20; 0xAC; 0xAA].

(** [pdf_pattern]: üìïùêìùê¢ùê≠ùê•ùêû ¬ª\s*([^\n]+) *)
Definition pdf_marker : str :=
  [0xF8FF; 0xFC; 0xEC; 0xEF; 0xF8FF; 0xF9; 0xEA; 0xEC; 0xF8FF; 0xF9; 0xEA;
   0xA2; 0xF8FF; 0xF9; 0xEA; 0x2260; 0xF8FF; 0xF9; 0xEA; 0x2022; 0xF8FF;
   0xF9; 0xEA; 0xFB; 0x20; 0xAC; 0xAA].

(** [course_pattern]: üìö Course :\s*([^\n]+) *)
Definition course_marker : str :=
  [0xF8FF; 0xFC; 0xEC; 0xF6] ++ lit " Course :".

(** [extracted_pattern]: üåüùêÑùê±ùê≠ùê´ùêöùêúùê≠ùêûùêù ùêÅùê≤ ¬ª\s*([^\n]+) *)
Definition extracted_marker : str :=
  [0xF8FF; 0xFC; 0xE5; 0xFC; 0xF8FF; 0xF9; 0xEA; 0xD1; 0xF8FF; 0xF9; 0xEA;
   0xB1; 0xF8FF; 0xF9; 0xEA; 0x2260; 0xF8FF; 0xF9; 0xEA; 0xB4; 0xF8FF; 0xF9;
   0xEA; 0xF6; 0xF8FF; 0xF9; 0xEA; 0xFA; 0xF8FF; 0xF9; 0xEA; 0x2260; 0xF8FF;
   0xF9; 0xEA; 0xFB; 0xF8FF; 0xF9; 0xEA; 0xF9; 0x20; 0xF8FF; 0xF9; 0xEA;
   0xC5; 0xF8FF; 0xF9; 0xEA; 0x2264; 0x20; 0xAC; 0xAA].

(** The characters that are not literal in a [re] pattern; no marker has
    one, so each marker matches itself and nothing else. *)
Definition is_meta (c : N) : bool :=
  existsb (N.eqb c) (lit ".^$*+?{}[]\|()").

Definition Unknown : str := lit "Unknown".

(** ** Pattern extractor (class [ChannelMonitor]) *)

Definition extract_title (caption : str) : option str :=
  let video_match := re_search video_marker caption in
  let pdf_match := re_search pdf_marker caption in
  match video_match with
  | Some g => Some (strip g)
  | None =>
      match pdf_match with
      | Some g => Some (strip g)
      | None => None
      end
  end.

Definition extract_course (caption : str) : str :=
  match re_search course_marker caption with
  | Some g => strip g
  | None => Unknown
  end.

Definition extract_extracted_by (caption : str) : str :=
  match re_search extracted_marker caption with
  | Some g => strip g
  | None => Unknown
  end.


(** ** Record store: the table [media_files] *)

(** One row, with the columns of [CREATE TABLE media_files].  [timestamp]
    is [CURRENT_TIMESTAMP] (UTC, one-second resolution, compared as text
    [YYYY-MM-DD HH:MM:SS]); it is modelled by the number of seconds, which
    orders the same way. *)
Record row := mkRow {
  row_id : Z;
  message_id : Z;
  file_type : str;
  title : str;
  course : str;
  extracted_by : str;
  file_id : str;
  timestamp : Z
}.

(** The table, in rowid order. *)
Definition table := list row.

(** [INTEGER PRIMARY KEY AUTOINCREMENT]: one more than the largest rowid. *)
Definition next_rowid (t : table) : Z :=
  (1 + fold_right (fun r acc => Z.max (row_id r) acc) 0 t)%Z.

(** [store_media_data]: the [INSERT]; [now] is the clock read by
    [CURRENT_TIMESTAMP]. *)
Definition store_media_data (now : Z)
    (message_id : Z) (file_type title course extracted_by file_id : str)
    (t : table) : table :=
  t ++ [mkRow (next_rowid t) message_id file_type title course extracted_by
              file_id now].

(** [ORDER BY timestamp DESC] over a scan in rowid order.  SQL leaves the
    order of rows with equal keys to the engine; SQLite's sorter keeps them
    in scan order, and so does this insertion. *)
Fixpoint insert_desc (r : row) (l : list row) : list row :=
  match l with
  | [] => [r]
  | x :: l' =>
      if (timestamp x <? timestamp r)%Z then r :: l
      else x :: insert_desc r l'
  end.

Definition order_by_timestamp_desc (l : list row) : list row :=
  fold_left (fun acc r => insert_desc r acc) l [].

(** [get_media_files(file_type=None)]; [if file_type:] is Python truthiness,
    so [None] and the empty string both take the unfiltered query. *)
Definition get_media_files (wanted : option str) (t : table) : list row :=
  match wanted with
  | Some ft =>
      if truthy ft then
        order_by_timestamp_desc (filter (fun r => str_eqb (file_type r) ft) t)
      else order_by_timestamp_desc t
  | None => order_by_timestamp_desc t
  end.

(** ** Ingestion pipeline *)

(** The payload objects [message.video] and [message.document]. *)
Record Media := mkMedia { media_file_id : str }.

(** A pyrogram [Message], with the attributes the handler reads. *)
Record Message := mkMessage {
  id : Z;
  video : option Media;
  document : option Media;
  caption : option str
}.

(** What the monitor changes: the table and the log. *)
Record state := mkState {
  media_files : table;
  logged : list str
}.

Definition is_some {A : Type} (o : option A) : bool :=
  match o with Some _ => true | None => false end.

(** [message.caption if message.caption else ""] *)
Definition caption_or_empty (message : Message) : str :=
  match caption message with
  | Some c => if truthy c then c else []
  | None => []
  end.

Definition video_kind : str := lit "video".
Definition pdf_kind : str := lit "pdf".

(** [process_channel_message]; when neither payload is present, and when
    [title] is falsy, nothing is done.  The last case of [file_id] is
    excluded by the guard. *)
Definition process_channel_message (now : Z) (message : Message)
    (st : state) : state :=
  if is_some (video message) || is_some (document message) then
    let caption := caption_or_empty message in
    let title := extract_title caption in
    let course := extract_course caption in
    let extracted_by := extract_extracted_by caption in
    match title with
    | Some title =>
        if truthy title then
          let file_type :=
            if is_some (video message) then video_kind else pdf_kind in
          let file_id :=
            match video message with
            | Some v => media_file_id v
            | None =>
                match document message with
                | Some d => media_file_id d
                | None => []
                end
            end in
          mkState
            (store_media_data now (id message) file_type title course
               extracted_by file_id (media_files st))
            (logged st ++ [lit "Stored " ++ file_type ++ lit ": " ++ title])
        else st
    | None => st
    end
  else st.

(** The monitor run over a stream of messages, each with the clock value at
    which it is handled. *)
Definition run_monitor (ms : list (Z * Message)) (st : state) : state :=
  fold_left (fun st m => process_channel_message (fst m) (snd m) st) ms st.

Definition empty_state : state := mkState [] [].

(** ** Summary renderer and command handlers (class [TelegramBot]) *)

(** The module [config] is not part of the sources; the two values the
    handlers read are taken as they come. *)
Record Config := mkConfig {
  ADMIN_ID : Z;
  CHANNEL_USERNAME : str
}.

(** What a handler sends. *)
Inductive action :=
| reply_text (text : str)
| send_message (chat_id : str) (text : str).

(** [str(n)] for an [int]. *)
Definition str_of_int (n : Z) : str :=
  lit (NilZero.string_of_int (Z.to_int n)).

(** The dictionary [organized_data]: keys in insertion order. *)
Definition dict := list (str * list row).

Definition dict_mem (k : str) (d : dict) : bool :=
  existsb (fun e => str_eqb (fst e) k) d.

(** [d[k].append(file)]; the loop only does it for a key that is there. *)
Fixpoint dict_append (k : str) (file : row) (d : dict) : dict :=
  match d with
  | [] => []
  | (k', files) :: d' =>
      if str_eqb k' k then (k', files ++ [file]) :: d'
      else (k', files) :: dict_append k file d'
  end.

(** The loop that organizes the files by course. *)
Definition organize (media_files : list row) : dict :=
  fold_left
    (fun organized_data file =>
       let course := course file in
       let organized_data :=
         if dict_mem course organized_data then organized_data
         else organized_data ++ [(course, [])] in
       dict_append course file organized_data)
    media_files [].

Definition bullet : str := [0x201A; 0xC4; 0xA2].
Definition summary_header : str :=
  [0xF8FF; 0xFC; 0xEC; 0xF6] ++ lit " **Course Materials Summary**" ++ NL ++ NL.
Definition videos_header : str :=
  [0xF8FF; 0xFC; 0xE9; 0x2022] ++ lit " **Videos:**" ++ NL.
Definition pdfs_header : str :=
  [0xF8FF; 0xFC; 0xEC; 0xD1] ++ lit " **PDFs:**" ++ NL.
Definition all_videos_header : str :=
  [0xF8FF; 0xFC; 0xE9; 0x2022] ++ lit " **All Videos**" ++ NL ++ NL.
Definition all_pdfs_header : str :=
  [0xF8FF; 0xFC; 0xEC; 0xD1] ++ lit " **All PDFs**" ++ NL ++ NL.

Section Renderer.

Variable config : Config.

(** The line of one entry: the title linked to the origin message. *)
Definition entry_line (f : row) : str :=
  bullet ++ lit " [" ++ title f ++ lit "](https://t.me/"
  ++ CHANNEL_USERNAME config ++ lit "/" ++ str_of_int (message_id f)
  ++ lit ")" ++ NL.

(** The inner loops [for video in videos[:5]] and [for pdf in pdfs[:5]]. *)
Definition append_entries (summary_text : str) (files : list row) : str :=
  fold_left (fun text f => text ++ entry_line f) (firstn 5 files) summary_text.

(** The body of the loop over [organized_data.items()]. *)
Definition append_course (summary_text : str) (e : str * list row) : str :=
  let course := fst e in
  let files := snd e in
  let summary_text := summary_text ++ lit "**" ++ course ++ lit "**" ++ NL in
  let videos := filter (fun f => str_eqb (file_type f) video_kind) files in
  let pdfs := filter (fun f => str_eqb (file_type f) pdf_kind) files in
  let summary_text :=
    match videos with
    | [] => summary_text
    | _ :: _ => append_entries (summary_text ++ videos_header) videos
    end in
  let summary_text :=
    match pdfs with
    | [] => summary_text
    | _ :: _ => append_entries (summary_text ++ pdfs_header) pdfs
    end in
  summary_text ++ NL.

(** The summary message built by [post_summary] from the loaded rows. *)
Definition summary_text (media_files : list row) : str :=
  fold_left append_course (organize media_files) summary_header.

(** [post_summary]; [send_error] is [None] when the send to the channel
    goes through and the text of the exception when it raises. *)
Definition post_summary (user_id : Z) (send_error : option str)
    (t : table) : list action :=
  if negb (user_id =? ADMIN_ID config)%Z then
    [reply_text (lit "You are not authorized to use this command.")]
  else
    let media_files := get_media_files None t in
    match media_files with
    | [] => [reply_text (lit "No media files found in database.")]
    | _ :: _ =>
        let text := summary_text media_files in
        match send_error with
        | None =>
            [send_message (lit "@" ++ CHANNEL_USERNAME config) text;
             reply_text (lit "Summary posted successfully!")]
        | Some e => [reply_text (lit "Error posting summary: " ++ e)]
        end
    end.

(** The loop of [get_videos] and [get_pdfs]. *)
Definition listing (header : str) (files : list row) : str :=
  fold_left
    (fun response f =>
       response ++ entry_line f ++ lit "  Course: " ++ course f ++ NL ++ NL)
    files header.

Definition get_videos (user_id : Z) (t : table) : list action :=
  if negb (user_id =? ADMIN_ID config)%Z then
    [reply_text (lit "You are not authorized to use this command.")]
  else
    let videos := get_media_files (Some video_kind) t in
    match videos with
    | [] => [reply_text (lit "No videos found in database.")]
    | _ :: _ => [reply_text (listing all_videos_header videos)]
    end.

Definition get_pdfs (user_id : Z) (t : table) : list action :=
  if negb (user_id =? ADMIN_ID config)%Z then
    [reply_text (lit "You are not authorized to use this command.")]
  else
    let pdfs := get_media_files (Some pdf_kind) t in
    match pdfs with
    | [] => [reply_text (lit "No PDFs found in database.")]
    | _ :: _ => [reply_text (listing all_pdfs_header pdfs)]
    end.

(** [start]: the onboarding text, for the administrator only. *)
Definition start (user_id : Z) : list action :=
  if negb (user_id =? ADMIN_ID config)%Z then
    [reply_text (lit "You are not authorized to use this bot.")]
  else
    [reply_text
       (lit "Bot started! Monitoring channel for videos and PDFs." ++ NL ++ NL
        ++ lit "Available commands:" ++ NL
        ++ lit "/post_summary - Post organized summary to channel" ++ NL
        ++ lit "/get_videos - Get list of all videos" ++ NL
        ++ lit "/get_pdfs - Get list of all PDFs")].

End Renderer.


(** ** Vocabulary of the properties *)

(** The trimmed remainder of the line of the first occurrence of [marker]:
    the value the caption grammar gives to a field. *)
Definition marker_line_value (marker caption : str) : option str :=
  match index_of marker caption with
  | Some i =>
      Some (strip (take_while not_nl (skipn (i + length marker) caption)))
  | None => None
  end.

(** Everything after the first occurrence of [marker], if there is one, is
    whitespace. *)
Definition blank_after (marker caption : str) : bool :=
  match index_of marker caption with
  | Some i => forallb isspace (skipn (i + length marker) caption)
  | None => true
  end.

(** The message carries a payload the monitor admits. *)
Definition has_payload (message : Message) : bool :=
  is_some (video message) || is_some (document message).

(** Title extraction yields a title: a string that is not empty. *)
Definition yields_title (caption : str) : Prop :=
  exists t, extract_title caption = Some t /\ t <> [].

(** The row that [process_channel_message] inserts for a message whose
    title is [title]. *)
Definition new_row (now : Z) (message : Message) (t : table) (title : str)
    : row :=
  mkRow (next_rowid t) (id message)
    (if is_some (video message) then video_kind else pdf_kind)
    title
    (extract_course (caption_or_empty message))
    (extract_extracted_by (caption_or_empty message))
    (match video message with
     | Some v => media_file_id v
     | None =>
         match document message with
         | Some d => media_file_id d
         | None => []
         end
     end)
    now.

(** One record was inserted on the way from [st] to [st']. *)
Definition inserted (st st' : state) : Prop :=
  exists r, media_files st' = media_files st ++ [r].

(** The courses of a sequence in first-seen order. *)
Fixpoint first_seen (l : list str) : list str :=
  match l with
  | [] => []
  | c :: l' => c :: filter (fun c' => negb (str_eqb c' c)) (first_seen l')
  end.

(** A sub-list of a course block: nothing when there are no entries, else
    the sub-header and one line per entry. *)
Definition section (config : Config) (header : str) (entries : list row)
    : str :=
  match entries with
  | [] => []
  | _ :: _ => header ++ concat (List.map (entry_line config) entries)
  end.

(** The block of one course in the summary. *)
Definition course_block (config : Config) (e : str * list row) : str :=
  append_course config [] e.

Definition is_video (f : row) : bool := str_eqb (file_type f) video_kind.
Definition is_pdf (f : row) : bool := str_eqb (file_type f) pdf_kind.

(** The number of lines of [s] that start with the bullet of an entry;
    [fresh] tells whether [s] begins a line. *)
Fixpoint count_entries_from (fresh : bool) (s : str) : nat :=
  let here :=
    if fresh && is_some (strip_prefix (bullet ++ lit " [") s) then 1%nat
    else 0%nat in
  match s with
  | [] => here
  | c :: s' => Nat.add here (count_entries_from (N.eqb c nl) s')
  end.

Definition count_entries (s : str) : nat := count_entries_from true s.

Definition no_newline (s : str) : Prop := Forall (fun c => c <> nl) s.

(** The order of a listing: never an earlier row before a later one. *)
Definition recency (a b : row) : Prop := (timestamp b <= timestamp a)%Z.

(** The order with ties broken by id: later first, and among rows of one
    timestamp the larger id first. *)
Definition recency_then_id (a b : row) : Prop :=
  (timestamp b < timestamp a)%Z \/
  (timestamp b = timestamp a /\ row_id b < row_id a)%Z.

(** The groups of a sequence of rows, course by course in first-seen
    order, each with the rows of that course in the order of the sequence. *)
Definition groups (media_files : list row) : dict :=
  List.map
    (fun c => (c, filter (fun r => str_eqb (course r) c) media_files))
    (first_seen (List.map course media_files)).

(** [t] is a contiguous piece of [s]. *)
Definition is_piece (t s : str) : Prop := exists a b, s = a ++ t ++ b.

(** The line [logger.info] writes for a stored row. *)
Definition log_line (r : row) : str :=
  lit "Stored " ++ file_type r ++ lit ": " ++ title r.

(** The payload reference [process_channel_message] takes from a message:
    that of the video when there is one, else that of the document. *)
Definition payload_reference (message : Message) : str :=
  match video message with
  | Some v => media_file_id v
  | None =>
      match document message with
      | Some d => media_file_id d
      | None => []
      end
  end.

(** The row [r] is what handling [message] at clock value [now] stores. *)
Definition stems_from (r : row) (now : Z) (message : Message) : Prop :=
  has_payload message = true /\
  message_id r = id message /\
  timestamp r = now /\
  extract_title (caption_or_empty message) = Some (title r) /\
  title r <> [] /\
  course r = extract_course (caption_or_empty message) /\
  extracted_by r = extract_extracted_by (caption_or_empty message) /\
  file_type r = (if is_some (video message) then video_kind else pdf_kind) /\
  file_id r = payload_reference message.

(** Rows in the order of their timestamps, no two of one timestamp. *)
Definition older_first (a b : row) : Prop := (timestamp a < timestamp b)%Z.

(** The kinds the monitor writes. *)
Definition known_kind (r : row) : Prop :=
  file_type r = video_kind \/ file_type r = pdf_kind.

(** What [get_videos] and [get_pdfs] append for one row: the entry line and
    the course line, then an empty line. *)
Definition listing_item (config : Config) (f : row) : str :=
  entry_line config f ++ lit "  Course: " ++ course f ++ NL ++ NL.

(** The number of entries a course block shows: five of each kind at most. *)
Definition shown_entries (e : str * list row) : nat :=
  (length (firstn 5 (filter is_video (snd e)))
   + length (firstn 5 (filter is_pdf (snd e))))%nat.

(** Titles and courses of one line, as a computable test. *)
Definition one_line_rows (t : table) : bool :=
  forallb (fun r => forallb not_nl (title r) && forallb not_nl (course r)) t.

(** ** Sample inputs *)

(** The caption of the worked example, written with the markers of the
    source. *)
Definition marked_caption : str :=
  video_marker ++ lit " Intro to Graphs" ++ NL
  ++ course_marker ++ lit " CS201" ++ NL
  ++ extracted_marker ++ lit " alice".

(** The caption of the worked example, character for character:
    [Title » Intro to Graphs\nCourse : CS201\nExtracted By » alice]. *)
Definition plain_caption : str :=
  lit "Title " ++ [0xBB] ++ lit " Intro to Graphs" ++ NL
  ++ lit "Course : CS201" ++ NL
  ++ lit "Extracted By " ++ [0xBB] ++ lit " alice".

Definition video_message (caption : str) : Message :=
  mkMessage 42 (Some (mkMedia (lit "vid-1"))) None (Some caption).

Definition document_message (caption : str) : Message :=
  mkMessage 43 None (Some (mkMedia (lit "doc-1"))) (Some caption).

(** A titled caption whose course line has the marker and one space. *)
Definition blank_course_caption : str :=
  video_marker ++ lit " A" ++ NL ++ course_marker ++ lit " ".

(** The video-title marker alone on its line, text on the next line. *)
Definition title_on_next_line : str :=
  video_marker ++ NL ++ lit "Intro".

(** The video-title marker alone on its line, a document title line next. *)
Definition two_title_lines : str :=
  video_marker ++ NL ++ pdf_marker ++ lit " Notes".

(** The video-title marker followed by spaces and a line end only. *)
Definition blank_title_caption : str :=
  video_marker ++ lit "  " ++ NL.

(** Seven video messages of one course, stored one per second. *)
Definition seven_videos : list (Z * Message) :=
  List.map (fun n => (n, video_message marked_caption))
    [1; 2; 3; 4; 5; 6; 7]%Z.

(** What a course block shows: its text is the header line, the two
    sub-lists and an empty line, and each sub-list has the first five rows
    of its kind at most. *)
Definition block_shape (config : Config) (e : str * list row) : Prop :=
  let vs := firstn 5 (filter is_video (snd e)) in
  let ps := firstn 5 (filter is_pdf (snd e)) in
  course_block config e =
  lit "**" ++ fst e ++ lit "**" ++ NL
  ++ section config videos_header vs ++ section config pdfs_header ps ++ NL
  /\ length vs = Nat.min 5 (length (filter is_video (snd e)))
  /\ length ps = Nat.min 5 (length (filter is_pdf (snd e)))
  /\ (length vs <= 5)%nat /\ (length ps <= 5)%nat.

(** The entry lines counted in the text of a course block. *)
Definition block_counts (config : Config) (e : str * list row) : Prop :=
  let vs := firstn 5 (filter is_video (snd e)) in
  let ps := firstn 5 (filter is_pdf (snd e)) in
  count_entries (section config videos_header vs) = length vs
  /\ count_entries (section config pdfs_header ps) = length ps
  /\ count_entries (course_block config e) = (length vs + length ps)%nat
  /\ (count_entries (section config videos_header vs) <= 5)%nat
  /\ (count_entries (section config pdfs_header ps) <= 5)%nat.

(** A video message and a document message handled one second apart. *)
Definition two_messages : list (Z * Message) :=
  [(1%Z, video_message marked_caption);
   (2%Z, document_message marked_caption)].

Definition sample_config : Config := mkConfig 7 (lit "channel").

(** ** Strings: basic facts *)

Lemma str_eqb_eq (a b : str) : str_eqb a b = true <-> a = b.
Proof.
  revert b; induction a as [|x a IH]; intros [|y b]; simpl.
  - split; reflexivity.
  - split; discriminate.
  - split; discriminate.
  - rewrite andb_true_iff, N.eqb_eq, IH. split.
    + intros [-> ->]; reflexivity.
    + intros H; inversion H; auto.
Qed.

Lemma str_eqb_refl (a : str) : str_eqb a a = true.
Proof. apply str_eqb_eq; reflexivity. Qed.

Lemma str_eqb_neq (a b : str) : str_eqb a b = false <-> a <> b.
Proof.
  rewrite <- str_eqb_eq. destruct (str_eqb a b); split; congruence.
Qed.

Lemma str_eqb_sym (a b : str) : str_eqb a b = str_eqb b a.
Proof.
  destruct (str_eqb a b) eqn:E.
  - apply str_eqb_eq in E; subst; symmetry; apply str_eqb_refl.
  - apply str_eqb_neq in E. symmetry. apply str_eqb_neq. congruence.
Qed.

Lemma truthy_true (s : str) : truthy s = true <-> s <> [].
Proof. destruct s; simpl; split; congruence. Qed.

Lemma nl_isspace : isspace nl = true.
Proof. reflexivity. Qed.

Lemma not_nl_of_not_space (c : N) : isspace c = false -> not_nl c = true.
Proof.
  intros H. unfold not_nl. destruct (N.eqb_spec c nl) as [->|]; [|reflexivity].
  rewrite nl_isspace in H; discriminate.
Qed.

Lemma take_drop_while (p : N -> bool) (s : str) :
  take_while p s ++ drop_while p s = s.
Proof.
  induction s as [|c s IH]; simpl; auto. destruct (p c); simpl; congruence.
Qed.

Lemma take_while_Forall (p : N -> bool) (s : str) :
  Forall (fun c => p c = true) (take_while p s).
Proof.
  induction s as [|c s IH]; simpl; auto. destruct (p c) eqn:E; auto.
Qed.

Lemma drop_while_all (p : N -> bool) (s : str) :
  Forall (fun c => p c = true) s -> drop_while p s = [].
Proof.
  induction 1 as [|c s H _ IH]; simpl; auto. rewrite H; auto.
Qed.

Lemma drop_while_head (p : N -> bool) (s : str) (c : N) (s' : str) :
  drop_while p s = c :: s' -> p c = false.
Proof.
  induction s as [|x s IH]; simpl; try discriminate.
  destruct (p x) eqn:E; auto. intros H; inversion H; subst; auto.
Qed.

Lemma drop_while_incl (p : N -> bool) (s : str) :
  incl (drop_while p s) s.
Proof.
  induction s as [|c s IH]; simpl.
  - apply incl_refl.
  - destruct (p c).
    + apply incl_tl; auto.
    + apply incl_refl.
Qed.

Lemma drop_while_idem (p : N -> bool) (s : str) :
  drop_while p (drop_while p s) = drop_while p s.
Proof.
  induction s as [|c s IH]; simpl; auto.
  destruct (p c) eqn:E; auto. simpl. rewrite E. reflexivity.
Qed.

Lemma strip_lstrip (s : str) : strip (lstrip s) = strip s.
Proof. unfold strip, lstrip. rewrite drop_while_idem. reflexivity. Qed.

Lemma strip_all_space (s : str) :
  Forall (fun c => isspace c = true) s -> strip s = [].
Proof.
  intros H. unfold strip, lstrip. rewrite drop_while_all; auto.
Qed.

Lemma strip_incl (s : str) : incl (strip s) s.
Proof.
  unfold strip, rstrip, lstrip. intros c Hc.
  apply in_rev in Hc. apply drop_while_incl in Hc. apply in_rev in Hc.
  apply drop_while_incl in Hc. exact Hc.
Qed.

(** [strip] leaves no whitespace at either end. *)
Lemma strip_head (s : str) (c : N) (s' : str) :
  strip s = c :: s' -> isspace c = false.
Proof.
  unfold strip, rstrip, lstrip. intros H.
  destruct (drop_while isspace s) as [|d l] eqn:E; [discriminate|].
  pose proof (drop_while_head _ _ _ _ E) as Hd.
  assert (Hl : d :: l = rev (rev (d :: l))) by (symmetry; apply rev_involutive).
  destruct (drop_while isspace (rev (d :: l))) as [|z k] eqn:E2;
    [discriminate|].
  pose proof (take_drop_while isspace (rev (d :: l))) as Hsplit.
  rewrite E2 in Hsplit.
  assert (Hrev : d :: l = rev (z :: k) ++ rev (take_while isspace (rev (d :: l)))).
  { rewrite <- rev_app_distr, Hsplit. symmetry; apply rev_involutive. }
  rewrite H in Hrev. simpl in Hrev. inversion Hrev; subst; auto.
Qed.

Lemma strip_last (s l : str) (c : N) :
  strip s = l ++ [c] -> isspace c = false.
Proof.
  unfold strip, rstrip. intros H.
  assert (H' : drop_while isspace (rev (lstrip s)) = c :: rev l).
  { rewrite <- (rev_involutive (drop_while isspace (rev (lstrip s)))), H.
    rewrite rev_app_distr. reflexivity. }
  eapply drop_while_head; eauto.
Qed.

Lemma no_newline_incl (s t : str) : incl s t -> no_newline t -> no_newline s.
Proof.
  unfold no_newline. rewrite !Forall_forall. auto.
Qed.

Lemma no_newline_app (s t : str) :
  no_newline (s ++ t) <-> no_newline s /\ no_newline t.
Proof. apply Forall_app. Qed.

Lemma take_while_no_newline (s : str) : no_newline (take_while not_nl s).
Proof.
  eapply Forall_impl; [|apply take_while_Forall].
  unfold not_nl. intros c H ->. rewrite N.eqb_refl in H. discriminate.
Qed.

(** ** The matcher: occurrences and captured groups *)

Lemma strip_prefix_spec (p s r : str) :
  strip_prefix p s = Some r <-> s = p ++ r.
Proof.
  revert s; induction p as [|x p IH]; intros s; simpl.
  - split; congruence.
  - destruct s as [|y s]; [split; discriminate|].
    destruct (N.eqb_spec x y) as [->|Hxy].
    + rewrite IH. split; [intros ->; reflexivity | intros H; inversion H; auto].
    + split; [discriminate | intros H; inversion H; congruence].
Qed.

Lemma strip_prefix_app (p r : str) : strip_prefix p (p ++ r) = Some r.
Proof. apply strip_prefix_spec; reflexivity. Qed.

Lemma strip_prefix_skipn (p s r : str) :
  strip_prefix p s = Some r -> r = skipn (length p) s.
Proof.
  intros H. apply strip_prefix_spec in H. subst s.
  rewrite skipn_app, skipn_all, Nat.sub_diag. reflexivity.
Qed.

Lemma capture_line_Some (s g : str) :
  capture_line s = Some g -> g = take_while not_nl s /\ g <> [].
Proof.
  unfold capture_line. destruct (take_while not_nl s) eqn:E;
    [discriminate|]. intros H; inversion H; subst. split; congruence.
Qed.

Lemma take_while_incl (p : N -> bool) (s : str) : incl (take_while p s) s.
Proof.
  induction s as [|c s IH]; simpl; [apply incl_refl|].
  destruct (p c); [|intros x []].
  intros x [->|Hx]; [left; reflexivity | right; auto].
Qed.

(** A captured group is a non-empty, newline-free piece of the text on
    which the tail of the pattern was tried. *)
Lemma spaces_then_capture_Some (s g : str) :
  spaces_then_capture s = Some g -> incl g s /\ no_newline g /\ g <> [].
Proof.
  revert g; induction s as [|c s IH]; intros g; simpl.
  - discriminate.
  - assert (Hcap : capture_line (c :: s) = Some g ->
                   incl g (c :: s) /\ no_newline g /\ g <> []).
    { intros H. apply capture_line_Some in H. destruct H as [-> Hne].
      split; [apply take_while_incl|]. split; auto.
      apply take_while_no_newline. }
    destruct (isspace c); auto.
    destruct (spaces_then_capture s) as [g'|] eqn:E; auto.
    intros H; inversion H; subst g'. destruct (IH g eq_refl) as (Hi & Hn & Hne).
    split; [apply incl_tl; auto|]. split; auto.
Qed.

(** When the line that follows has a character that is not whitespace, the
    group is that line without its leading whitespace. *)
Lemma spaces_then_capture_line (rest : str) :
  lstrip (take_while not_nl rest) <> [] ->
  spaces_then_capture rest = Some (lstrip (take_while not_nl rest)).
Proof.
  induction rest as [|c rest IH].
  - intros H; exfalso; apply H; reflexivity.
  - intros H. cbn [spaces_then_capture take_while] in *.
    destruct (isspace c) eqn:Hsp.
    + destruct (not_nl c) eqn:Hnl.
      * unfold lstrip in *. cbn [drop_while] in *. rewrite Hsp in *.
        rewrite (IH H). reflexivity.
      * exfalso; apply H; reflexivity.
    + unfold capture_line. cbn [take_while].
      rewrite (not_nl_of_not_space _ Hsp) in *.
      unfold lstrip. cbn [drop_while]. rewrite Hsp. reflexivity.
Qed.

Lemma index_of_None_search (m s : str) :
  index_of m s = None -> re_search m s = None.
Proof.
  induction s as [|c s IH]; simpl; unfold match_here.
  - destruct (strip_prefix m []); [discriminate | reflexivity].
  - destruct (strip_prefix m (c :: s)); [discriminate|].
    destruct (index_of m s); [discriminate|]. intros _. apply IH; reflexivity.
Qed.

Lemma index_of_occurrence (m s : str) (i : nat) :
  index_of m s = Some i ->
  strip_prefix m (skipn i s) = Some (skipn (i + length m) s).
Proof.
  revert i; induction s as [|c s IH]; intros i; simpl.
  - destruct (strip_prefix m []) as [r|] eqn:E; [|discriminate].
    intros H; inversion H; subst i. simpl.
    rewrite E. f_equal. rewrite skipn_nil.
    apply strip_prefix_spec in E. destruct m, r; simpl in E; congruence.
  - destruct (strip_prefix m (c :: s)) as [r|] eqn:E.
    + intros H; inversion H; subst i. simpl skipn at 1. rewrite E. f_equal.
      apply strip_prefix_skipn; exact E.
    + destruct (index_of m s) as [i'|]; [|discriminate].
      intros H; inversion H; subst i. simpl. apply IH; reflexivity.
Qed.

(** The first occurrence is the least one. *)
Lemma index_of_least (m s : str) (i j : nat) :
  index_of m s = Some i -> strip_prefix m (skipn j s) <> None -> (i <= j)%nat.
Proof.
  revert i j; induction s as [|c s IH]; intros i j; simpl.
  - destruct (strip_prefix m []); [|discriminate].
    intros H; inversion H; lia.
  - destruct (strip_prefix m (c :: s)) as [r|] eqn:E.
    + intros H; inversion H; lia.
    + destruct (index_of m s) as [i'|]; [|discriminate].
      intros H; inversion H; subst i. destruct j as [|j]; simpl.
      * rewrite E; congruence.
      * intros Hj. specialize (IH i' j eq_refl Hj). lia.
Qed.

Lemma index_of_None_no_occurrence (m s : str) (j : nat) :
  index_of m s = None -> strip_prefix m (skipn j s) = None.
Proof.
  revert j; induction s as [|c s IH]; intros j; simpl.
  - rewrite skipn_nil. destruct (strip_prefix m []); [discriminate | auto].
  - destruct (strip_prefix m (c :: s)) eqn:E; [discriminate|].
    destruct (index_of m s); [discriminate|]. intros _.
    destruct j; simpl; auto.
Qed.

(** The marker is absent exactly when the text cannot be cut around it. *)
Lemma index_of_None_iff (m s : str) :
  index_of m s = None <-> forall pre post, s <> pre ++ m ++ post.
Proof.
  split.
  - intros H pre post ->.
    pose proof (index_of_None_no_occurrence m _ (length pre) H) as Hn.
    rewrite skipn_app, skipn_all, Nat.sub_diag in Hn. simpl in Hn.
    rewrite strip_prefix_app in Hn. discriminate.
  - intros H. destruct (index_of m s) as [i|] eqn:E; auto.
    apply index_of_occurrence in E. apply strip_prefix_spec in E.
    exfalso. apply (H (firstn i s) (skipn (i + length m) s)).
    rewrite <- E. symmetry. apply firstn_skipn.
Qed.

(** The search returns what the tail of the pattern captures behind the
    first occurrence, when it captures something there. *)
Lemma index_of_Some_search (m s g : str) (i : nat) :
  index_of m s = Some i ->
  spaces_then_capture (skipn (i + length m) s) = Some g ->
  re_search m s = Some g.
Proof.
  revert i; induction s as [|c s IH]; intros i; simpl; unfold match_here.
  - destruct (strip_prefix m []) as [r|] eqn:E; [|discriminate].
    intros H; inversion H; subst i. rewrite skipn_nil.
    simpl. unfold capture_line. simpl. discriminate.
  - destruct (strip_prefix m (c :: s)) as [r|] eqn:E.
    + intros H; inversion H; subst i. simpl Nat.add.
      rewrite <- (strip_prefix_skipn _ _ _ E). intros ->. reflexivity.
    + destruct (index_of m s) as [i'|]; [|discriminate].
      intros H; inversion H; subst i. simpl. apply IH; reflexivity.
Qed.

(** Whatever the search returns was captured behind some occurrence. *)
Lemma re_search_Some (m s g : str) :
  re_search m s = Some g ->
  exists j, strip_prefix m (skipn j s) <> None /\
            spaces_then_capture (skipn (j + length m) s) = Some g.
Proof.
  induction s as [|c s IH]; simpl; unfold match_here.
  - destruct (strip_prefix m []) as [r|] eqn:E; [|discriminate].
    apply strip_prefix_spec in E. destruct m; [|discriminate].
    simpl in E; subst r. cbv. discriminate.
  - destruct (strip_prefix m (c :: s)) as [r|] eqn:E.
    + destruct (spaces_then_capture r) as [g'|] eqn:Er.
      * intros H; inversion H; subst g'. exists O. simpl skipn at 1.
        rewrite E. split; [congruence|]. simpl Nat.add.
        rewrite <- (strip_prefix_skipn _ _ _ E). exact Er.
      * intros H. destruct (IH H) as (j & Hj & Hg). exists (S j). auto.
    + intros H. destruct (IH H) as (j & Hj & Hg). exists (S j). auto.
Qed.

Lemma re_search_Some_present (m s g : str) :
  re_search m s = Some g -> index_of m s <> None.
Proof.
  intros H E. rewrite (index_of_None_search _ _ E) in H. discriminate.
Qed.

Lemma in_skipn {A : Type} (n : nat) (l : list A) (x : A) :
  In x (skipn n l) -> In x l.
Proof.
  intros H. rewrite <- (firstn_skipn n l). apply in_or_app. right; exact H.
Qed.

(** When only whitespace follows the first occurrence, every group the
    search can return is whitespace. *)
Lemma re_search_blank (m s g : str) :
  blank_after m s = true -> re_search m s = Some g ->
  Forall (fun c => isspace c = true) g.
Proof.
  unfold blank_after. intros Hb Hs.
  destruct (index_of m s) as [i|] eqn:Ei.
  - destruct (re_search_Some _ _ _ Hs) as (j & Hj & Hg).
    pose proof (index_of_least _ _ _ _ Ei Hj) as Hle.
    apply spaces_then_capture_Some in Hg. destruct Hg as (Hincl & _ & _).
    rewrite forallb_forall in Hb. apply Forall_forall. intros c Hc.
    apply Hb. apply Hincl in Hc.
    replace (j + length m)%nat with ((j - i) + (i + length m))%nat in Hc
      by lia.
    rewrite <- skipn_skipn in Hc.
    eapply in_skipn; eauto.
  - rewrite (index_of_None_search _ _ Ei) in Hs. discriminate.
Qed.

(** ** The extractors *)

(** The markers are plain literals of the pattern language. *)
Lemma markers_are_literal :
  forallb (fun c => negb (is_meta c))
    (video_marker ++ pdf_marker ++ course_marker ++ extracted_marker) = true.
Proof. reflexivity. Qed.

Lemma strip_nonempty_lstrip (s : str) : strip s <> [] -> lstrip s <> [].
Proof.
  unfold strip, rstrip. intros H E. apply H. rewrite E. reflexivity.
Qed.

(** The value of a field whose line is not blank: the search finds it behind
    the first occurrence of the marker. *)
Lemma field_value (m s v : str) :
  marker_line_value m s = Some v -> v <> [] ->
  option_map strip (re_search m s) = Some v.
Proof.
  unfold marker_line_value. destruct (index_of m s) as [i|] eqn:Ei;
    [|discriminate].
  intros H Hv; inversion H; subst v; clear H.
  apply strip_nonempty_lstrip in Hv.
  rewrite (index_of_Some_search _ _ _ _ Ei (spaces_then_capture_line _ Hv)).
  simpl. rewrite strip_lstrip. reflexivity.
Qed.

(** Behind a blank remainder the search finds nothing, or only whitespace. *)
Lemma field_blank (m s : str) :
  blank_after m s = true ->
  option_map strip (re_search m s) = None \/
  option_map strip (re_search m s) = Some [].
Proof.
  intros Hb. destruct (re_search m s) as [g|] eqn:E; simpl; auto.
  right. f_equal. apply strip_all_space. eapply re_search_blank; eauto.
Qed.

Lemma extract_title_video (caption g : str) :
  re_search video_marker caption = Some g ->
  extract_title caption = Some (strip g).
Proof. unfold extract_title. intros ->. reflexivity. Qed.

Lemma extract_title_no_newline (caption t : str) :
  extract_title caption = Some t -> no_newline t.
Proof.
  unfold extract_title.
  destruct (re_search video_marker caption) as [g|] eqn:Ev;
    [|destruct (re_search pdf_marker caption) as [g|] eqn:Ep];
    intros H; inversion H; subst t;
    (eapply no_newline_incl; [apply strip_incl|]).
  - apply re_search_Some in Ev. destruct Ev as (j & _ & Hg).
    apply spaces_then_capture_Some in Hg. tauto.
  - apply re_search_Some in Ep. destruct Ep as (j & _ & Hg).
    apply spaces_then_capture_Some in Hg. tauto.
Qed.

(** ** The pipeline: the two outcomes of one message *)

Lemma process_stores (now : Z) (message : Message) (st : state) (t : str) :
  has_payload message = true ->
  extract_title (caption_or_empty message) = Some t -> t <> [] ->
  process_channel_message now message st =
  mkState (media_files st ++ [new_row now message (media_files st) t])
          (logged st ++
             [lit "Stored "
              ++ (if is_some (video message) then video_kind else pdf_kind)
              ++ lit ": " ++ t]).
Proof.
  unfold has_payload, process_channel_message. intros -> -> Ht.
  apply truthy_true in Ht. rewrite Ht. reflexivity.
Qed.

Lemma process_skips (now : Z) (message : Message) (st : state) :
  has_payload message = false \/
  extract_title (caption_or_empty message) = None \/
  extract_title (caption_or_empty message) = Some [] ->
  process_channel_message now message st = st.
Proof.
  unfold has_payload, process_channel_message.
  intros [->|[->| ->]]; auto;
    destruct (is_some (video message) || is_some (document message));
    reflexivity.
Qed.

Lemma process_cases (now : Z) (message : Message) (st : state) :
  process_channel_message now message st = st \/
  exists t, has_payload message = true /\
            extract_title (caption_or_empty message) = Some t /\ t <> [] /\
            media_files (process_channel_message now message st) =
            media_files st ++ [new_row now message (media_files st) t].
Proof.
  destruct (has_payload message) eqn:Hp;
    [|left; apply process_skips; auto].
  destruct (extract_title (caption_or_empty message)) as [t|] eqn:Et;
    [|left; apply process_skips; auto].
  destruct t as [|c t]; [left; apply process_skips; auto|].
  right. exists (c :: t). repeat split; auto; try discriminate.
  rewrite (process_stores now message st (c :: t)); auto; discriminate.
Qed.

Lemma list_neq_snoc {A : Type} (l : list A) (x : A) : l <> l ++ [x].
Proof.
  intros H. apply (f_equal (@length A)) in H.
  rewrite length_app in H. simpl in H. lia.
Qed.

(** A property of the rows that every insertion establishes holds of every
    row the monitor ever stores. *)
Lemma run_monitor_rows (P : row -> Prop) :
  (forall now message t title,
      extract_title (caption_or_empty message) = Some title -> title <> [] ->
      P (new_row now message t title)) ->
  forall ms st, Forall P (media_files st) ->
                Forall P (media_files (run_monitor ms st)).
Proof.
  intros HP ms. unfold run_monitor.
  induction ms as [|[now m] ms IH]; intros st Hst; simpl; auto.
  apply IH. destruct (process_cases now m st) as [->|(t & _ & Et & Ht & ->)];
    auto.
  apply Forall_app; split; auto.
Qed.

(** ** Ingestion: records and titles *)

Lemma extract_title_course_only :
  extract_title (lit "Course : CS201") = None /\
  extract_title (course_marker ++ lit " CS201" ++ NL
                 ++ extracted_marker ++ lit " alice") = None.
Proof. split; vm_compute; reflexivity. Qed.

(** C1: for a message with a video or document payload a record is inserted
    if and only if title extraction on the caption (empty when absent)
    yields a title, that is a non-empty string; when no title pattern
    matches the state is left as it was, also for a caption that has the
    course and attribution markers; a message with neither payload leaves
    the state as it was. *)
Theorem C1_record_iff_title (now : Z) (message : Message) (st : state) :
  (has_payload message = true ->
     (inserted st (process_channel_message now message st) <->
      yields_title (caption_or_empty message)) /\
     (extract_title (caption_or_empty message) = None ->
      process_channel_message now message st = st)) /\
  (has_payload message = false ->
     process_channel_message now message st = st) /\
  process_channel_message now
    (video_message (course_marker ++ lit " CS201" ++ NL
                    ++ extracted_marker ++ lit " alice")) st = st /\
  process_channel_message now (video_message (lit "Course : CS201")) st = st.
Proof.
  split; [|split; [|split]].
  - intros Hp. split.
    + split.
      * intros [r Hr].
        destruct (process_cases now message st) as [E|(t & _ & Et & Ht & _)].
        -- rewrite E in Hr. exfalso. eapply list_neq_snoc; eauto.
        -- exists t; auto.
      * intros (t & Et & Ht).
        rewrite (process_stores now message st t Hp Et Ht).
        eexists; reflexivity.
    + intros E. apply process_skips; auto.
  - intros Hp. apply process_skips; auto.
  - apply process_skips. right; left.
    exact (proj2 extract_title_course_only).
  - apply process_skips. right; left.
    exact (proj1 extract_title_course_only).
Qed.

Lemma C1_record_iff_title_witness :
  (inserted empty_state
     (process_channel_message 0 (video_message marked_caption) empty_state) <->
   yields_title marked_caption) /\
  process_channel_message 0
    (mkMessage 9 None None (Some marked_caption)) empty_state = empty_state.
Proof.
  split.
  - exact (proj1 (proj1 (C1_record_iff_title 0 (video_message marked_caption)
                            empty_state) eq_refl)).
  - exact (proj1 (proj2 (C1_record_iff_title 0
                            (mkMessage 9 None None (Some marked_caption))
                            empty_state)) eq_refl).
Defined.

Lemma next_rowid_snoc (t : table) (r : row) :
  next_rowid (t ++ [r]) = (1 + Z.max (row_id r) (next_rowid t - 1))%Z.
Proof.
  unfold next_rowid. f_equal.
  replace (1 + fold_right (fun r acc => Z.max (row_id r) acc) 0%Z t - 1)%Z
    with (fold_right (fun r acc => Z.max (row_id r) acc) 0%Z t) by lia.
  induction t as [|x t IH]; simpl.
  - lia.
  - rewrite IH. lia.
Qed.

(** C3: handling the same qualifying message twice stores two records, one
    after the other, with the same origin message id, kind, title, course,
    attribution and payload reference and with different ids. *)
Theorem C3_not_idempotent (now1 now2 : Z) (message : Message) (st : state) :
  has_payload message = true ->
  yields_title (caption_or_empty message) ->
  exists r1 r2,
    media_files (process_channel_message now2 message
                   (process_channel_message now1 message st)) =
    media_files st ++ [r1; r2] /\
    row_id r2 = (row_id r1 + 1)%Z /\ row_id r1 <> row_id r2 /\
    message_id r1 = id message /\ message_id r2 = id message /\
    file_type r1 = file_type r2 /\ title r1 = title r2 /\
    course r1 = course r2 /\ extracted_by r1 = extracted_by r2 /\
    file_id r1 = file_id r2.
Proof.
  intros Hp (t & Et & Ht).
  rewrite (process_stores now2 message _ t Hp Et Ht).
  rewrite (process_stores now1 message st t Hp Et Ht). simpl.
  cbn [media_files]. rewrite <- app_assoc. cbn [app].
  eexists; eexists. split; [reflexivity|].
  unfold new_row; cbn [row_id message_id file_type title course extracted_by
                         file_id].
  rewrite next_rowid_snoc. cbn [row_id].
  repeat split; try reflexivity; lia.
Qed.

Lemma C3_not_idempotent_witness :
  exists r1 r2,
    media_files (process_channel_message 5 (video_message marked_caption)
                   (process_channel_message 5 (video_message marked_caption)
                      empty_state)) = [r1; r2] /\
    row_id r2 = (row_id r1 + 1)%Z /\ row_id r1 <> row_id r2 /\
    message_id r1 = 42%Z /\ message_id r2 = 42%Z /\
    file_type r1 = file_type r2 /\ title r1 = title r2 /\
    course r1 = course r2 /\ extracted_by r1 = extracted_by r2 /\
    file_id r1 = file_id r2.
Proof.
  apply (C3_not_idempotent 5 5 (video_message marked_caption) empty_state).
  - reflexivity.
  - exists (lit "Intro to Graphs"). split; [vm_compute; reflexivity|].
    discriminate.
Defined.

(** C9, as stated, fails: the caption of the example, taken character for
    character, has none of the markers, so no title is found and nothing is
    stored. *)
Lemma C9_plain_caption_stores_nothing :
  extract_title plain_caption = None /\
  media_files
    (process_channel_message 0 (video_message plain_caption) empty_state)
  = [].
Proof. split; vm_compute; reflexivity. Qed.

Lemma marked_caption_fields :
  extract_title marked_caption = Some (lit "Intro to Graphs") /\
  extract_course marked_caption = lit "CS201" /\
  extract_extracted_by marked_caption = lit "alice".
Proof. repeat split; vm_compute; reflexivity. Qed.

(** C9, amended: a message with a video payload whose caption is the example
    written with the markers of the source (video-title marker, course
    marker and attribution marker in front of the three values) stores one
    record of kind video with title [Intro to Graphs], course [CS201] and
    attribution [alice]. *)
Theorem C9_marked_caption_record (now : Z) (st : state) (message_id : Z)
    (v : Media) (d : option Media) :
  media_files
    (process_channel_message now
       (mkMessage message_id (Some v) d (Some marked_caption)) st) =
  media_files st ++
    [mkRow (next_rowid (media_files st)) message_id (lit "video")
       (lit "Intro to Graphs") (lit "CS201") (lit "alice") (media_file_id v)
       now].
Proof.
  destruct marked_caption_fields as (Et & Ec & Ee).
  rewrite (process_stores now
             (mkMessage message_id (Some v) d (Some marked_caption)) st
             (lit "Intro to Graphs") eq_refl Et); [|discriminate].
  unfold new_row. cbn [media_files id video].
  change (caption_or_empty
            (mkMessage message_id (Some v) d (Some marked_caption)))
    with marked_caption.
  rewrite Ec, Ee. reflexivity.
Qed.

(** C2, as stated, fails: with the course marker followed by one space the
    course is the empty string, and it is stored so; with the marker
    followed by a line end only the course is [Unknown] although the marker
    is there. *)
Lemma C2_blank_course_is_stored_empty :
  index_of course_marker blank_course_caption = Some 33%nat /\
  extract_course blank_course_caption = [] /\
  List.map (fun r => (title r, course r))
    (media_files
       (process_channel_message 0 (video_message blank_course_caption)
          empty_state)) = [(lit "A", [])] /\
  index_of course_marker (course_marker ++ NL) = Some 0%nat /\
  extract_course (course_marker ++ NL) = Unknown.
Proof. repeat split; vm_compute; reflexivity. Qed.

(** C2, amended: each of the two extractors returns [Unknown] when its
    marker is absent from the caption, and the trimmed remainder of the
    marker's line when the first occurrence of the marker is followed on its
    line by a character that is not whitespace; that value is not empty.
    The record stored for a message carries exactly the two extracted
    values. *)
Theorem C2_course_and_attribution :
  (forall caption,
      (index_of course_marker caption = None ->
       extract_course caption = Unknown) /\
      (forall v, marker_line_value course_marker caption = Some v ->
                 v <> [] -> extract_course caption = v) /\
      (index_of extracted_marker caption = None ->
       extract_extracted_by caption = Unknown) /\
      (forall v, marker_line_value extracted_marker caption = Some v ->
                 v <> [] -> extract_extracted_by caption = v)) /\
  (forall now message st r,
      In r (media_files (process_channel_message now message st)) ->
      In r (media_files st) \/
      (course r = extract_course (caption_or_empty message) /\
       extracted_by r = extract_extracted_by (caption_or_empty message))).
Proof.
  split.
  - intros caption. unfold extract_course, extract_extracted_by.
    repeat split.
    + intros H. rewrite (index_of_None_search _ _ H). reflexivity.
    + intros v Hv Hne. pose proof (field_value _ _ _ Hv Hne) as H.
      destruct (re_search course_marker caption); simpl in H; congruence.
    + intros H. rewrite (index_of_None_search _ _ H). reflexivity.
    + intros v Hv Hne. pose proof (field_value _ _ _ Hv Hne) as H.
      destruct (re_search extracted_marker caption); simpl in H; congruence.
  - intros now message st r Hr.
    destruct (process_cases now message st) as [E|(t & _ & _ & _ & E)];
      rewrite E in Hr; auto.
    apply in_app_or in Hr. destruct Hr as [Hr|[<-|[]]]; auto.
Qed.

Lemma C2_course_and_attribution_witness :
  extract_course (lit "no markers here") = Unknown /\
  extract_extracted_by (lit "no markers here") = Unknown /\
  extract_course marked_caption = lit "CS201" /\
  extract_extracted_by marked_caption = lit "alice".
Proof.
  pose proof (proj1 C2_course_and_attribution (lit "no markers here")) as A.
  pose proof (proj1 C2_course_and_attribution marked_caption) as B.
  split; [|split; [|split]].
  - apply (proj1 A). vm_compute; reflexivity.
  - apply (proj1 (proj2 (proj2 A))). vm_compute; reflexivity.
  - apply (proj1 (proj2 B)); [vm_compute; reflexivity | discriminate].
  - apply (proj2 (proj2 (proj2 B))); [vm_compute; reflexivity | discriminate].
Defined.

(** C4, as stated, fails: the caption below has the video-title marker and
    no document-title marker, and the remainder of the marker's line is
    empty; the title extracted is the text of the next line, and with a
    document payload the record stored has kind pdf. *)
Lemma C4_title_from_next_line_kind_from_payload :
  index_of video_marker title_on_next_line = Some 0%nat /\
  index_of pdf_marker title_on_next_line = None /\
  marker_line_value video_marker title_on_next_line = Some [] /\
  extract_title title_on_next_line = Some (lit "Intro") /\
  List.map (fun r => (file_type r, title r))
    (media_files
       (process_channel_message 0 (document_message title_on_next_line)
          empty_state)) = [(lit "pdf", lit "Intro")].
Proof. repeat split; vm_compute; reflexivity. Qed.

(** C4, amended: when the first occurrence of the video-title marker is
    followed on its line by a character that is not whitespace, the title
    is the trimmed remainder of that line up to the first newline, whether
    or not the document pattern matches too; whenever the video pattern
    matches, its group is the one used; the kind of the stored record comes
    from the payload alone: video when the message has a video payload, pdf
    otherwise. *)
Theorem C4_video_title_and_kind :
  (forall caption t,
      marker_line_value video_marker caption = Some t -> t <> [] ->
      extract_title caption = Some t) /\
  (forall caption g,
      re_search video_marker caption = Some g ->
      extract_title caption = Some (strip g)) /\
  (forall now message st,
      has_payload message = true ->
      yields_title (caption_or_empty message) ->
      exists r,
        media_files (process_channel_message now message st) =
        media_files st ++ [r] /\
        extract_title (caption_or_empty message) = Some (title r) /\
        file_type r =
          if is_some (video message) then lit "video" else lit "pdf").
Proof.
  split; [|split].
  - intros caption t Ht Hne. pose proof (field_value _ _ _ Ht Hne) as H.
    destruct (re_search video_marker caption) as [g|] eqn:E;
      simpl in H; [|discriminate].
    rewrite (extract_title_video _ _ E). congruence.
  - apply extract_title_video.
  - intros now message st Hp (t & Et & Ht).
    rewrite (process_stores now message st t Hp Et Ht).
    eexists. split; [reflexivity|]. split; [exact Et | reflexivity].
Qed.

Lemma C4_video_title_and_kind_witness :
  extract_title (marked_caption ++ NL ++ pdf_marker ++ lit " Other") =
  Some (lit "Intro to Graphs") /\
  exists r,
    media_files
      (process_channel_message 3
         (mkMessage 5 (Some (mkMedia (lit "v"))) (Some (mkMedia (lit "d")))
            (Some marked_caption)) empty_state) = [r] /\
    extract_title marked_caption = Some (title r) /\
    file_type r = lit "video".
Proof.
  split.
  - apply (proj1 C4_video_title_and_kind);
      [vm_compute; reflexivity | discriminate].
  - apply (proj2 (proj2 C4_video_title_and_kind) 3%Z
             (mkMessage 5 (Some (mkMedia (lit "v")))
                (Some (mkMedia (lit "d"))) (Some marked_caption))
             empty_state eq_refl).
    exists (lit "Intro to Graphs"). split; [vm_compute; reflexivity|].
    discriminate.
Defined.

(** C10, as stated, fails: the video-title marker below is followed by
    nothing up to the end of its line, yet a title is extracted from the
    next line and a record is stored. *)
Lemma C10_blank_title_line_still_stores :
  index_of video_marker two_title_lines = Some 0%nat /\
  marker_line_value video_marker two_title_lines = Some [] /\
  List.map title
    (media_files
       (process_channel_message 0 (document_message two_title_lines)
          empty_state)) = [pdf_marker ++ lit " Notes"].
Proof. repeat split; vm_compute; reflexivity. Qed.

(** C10, amended: every record the monitor stores has a non-empty title
    without a newline; and when, for each of the two title markers that the
    caption contains, everything after its first occurrence up to the end of
    the caption is whitespace, the extracted title is absent or empty and no
    record is inserted. *)
Theorem C10_title_never_empty :
  (forall ms,
      Forall (fun r => title r <> [] /\ no_newline (title r))
        (media_files (run_monitor ms empty_state))) /\
  (forall now message st,
      blank_after video_marker (caption_or_empty message) = true ->
      blank_after pdf_marker (caption_or_empty message) = true ->
      (extract_title (caption_or_empty message) = None \/
       extract_title (caption_or_empty message) = Some []) /\
      process_channel_message now message st = st).
Proof.
  split.
  - intros ms. apply run_monitor_rows; [|constructor].
    intros now message t ttl Et Hne. unfold new_row; cbn [title].
    split; auto. eapply extract_title_no_newline; eauto.
  - intros now message st Hv Hp.
    assert (H : extract_title (caption_or_empty message) = None \/
                extract_title (caption_or_empty message) = Some []).
    { apply field_blank in Hv. apply field_blank in Hp.
      unfold extract_title.
      destruct (re_search video_marker (caption_or_empty message)) as [g|];
        simpl in Hv.
      - destruct Hv as [Hv|Hv]; [discriminate|]. right; exact Hv.
      - destruct (re_search pdf_marker (caption_or_empty message)) as [g|];
          simpl in Hp; [|left; reflexivity].
        destruct Hp as [Hp|Hp]; [discriminate|]. right; exact Hp. }
    split; [exact H|]. apply process_skips. right; exact H.
Qed.

Lemma C10_title_never_empty_witness :
  process_channel_message 0 (video_message blank_title_caption) empty_state
  = empty_state.
Proof.
  apply (proj2 C10_title_never_empty 0%Z (video_message blank_title_caption)
           empty_state); vm_compute; reflexivity.
Defined.

(** ** The store: listings *)

Lemma insert_desc_perm (r : row) (l : list row) :
  Permutation (insert_desc r l) (r :: l).
Proof.
  induction l as [|x l IH]; simpl; auto.
  destruct (timestamp x <? timestamp r)%Z; auto.
  rewrite IH. apply perm_swap.
Qed.

Lemma insert_desc_sorted (r : row) (l : list row) :
  StronglySorted recency l -> StronglySorted recency (insert_desc r l).
Proof.
  induction 1 as [|x l Hl IH Hx]; simpl.
  - constructor; constructor.
  - destruct (Z.ltb_spec (timestamp x) (timestamp r)) as [Hlt|Hge].
    + constructor; [constructor; auto|].
      constructor; [unfold recency; lia|].
      eapply Forall_impl; [|exact Hx]. unfold recency. intros; lia.
    + constructor; auto.
      eapply Permutation_Forall; [symmetry; apply insert_desc_perm|].
      constructor; auto.
Qed.

Lemma order_by_acc (l acc : list row) :
  StronglySorted recency acc ->
  StronglySorted recency (fold_left (fun acc r => insert_desc r acc) l acc) /\
  Permutation (fold_left (fun acc r => insert_desc r acc) l acc) (acc ++ l).
Proof.
  revert acc; induction l as [|r l IH]; intros acc Hacc; simpl.
  - rewrite app_nil_r. auto.
  - destruct (IH (insert_desc r acc) (insert_desc_sorted r acc Hacc))
      as [Hs Hp].
    split; auto. rewrite Hp, insert_desc_perm. apply Permutation_middle.
Qed.

Lemma order_by_sorted (l : list row) :
  StronglySorted recency (order_by_timestamp_desc l).
Proof. apply order_by_acc. constructor. Qed.

Lemma order_by_perm (l : list row) :
  Permutation (order_by_timestamp_desc l) l.
Proof. apply (order_by_acc l []). constructor. Qed.

(** C5, as stated, fails: two records stored within the same second are
    listed with the smaller id first. *)
Lemma C5_equal_timestamps_listed_by_ascending_id :
  List.map (fun r => (timestamp r, row_id r))
    (get_media_files None
       (media_files
          (run_monitor [(5%Z, video_message marked_caption);
                        (5%Z, video_message marked_caption)] empty_state)))
  = [(5%Z, 1%Z); (5%Z, 2%Z)] /\
  ~ StronglySorted recency_then_id
      (get_media_files None
         (media_files
            (run_monitor [(5%Z, video_message marked_caption);
                          (5%Z, video_message marked_caption)]
               empty_state))).
Proof.
  split; [vm_compute; reflexivity|].
  intros H.
  assert (E : exists a b,
             get_media_files None
               (media_files
                  (run_monitor [(5%Z, video_message marked_caption);
                                (5%Z, video_message marked_caption)]
                     empty_state)) = [a; b] /\
             timestamp a = 5%Z /\ timestamp b = 5%Z /\
             row_id a = 1%Z /\ row_id b = 2%Z).
  { eexists; eexists. split; [vm_compute; reflexivity|].
    repeat split. }
  destruct E as (a & b & E & Ta & Tb & Ia & Ib). rewrite E in H.
  inversion H as [|x l _ Hall]; subst. inversion Hall as [|y k Hab _]; subst.
  unfold recency_then_id in Hab. lia.
Qed.

(** C5, amended: both listings are in descending order of timestamp (the
    query has no second key, so the order among equal timestamps is not
    fixed by it); the unfiltered listing has exactly the rows of the table
    and the listing for a non-empty kind exactly the rows of that kind. *)
Theorem C5_listings (t : table) :
  (forall wanted, StronglySorted recency (get_media_files wanted t)) /\
  Permutation (get_media_files None t) t /\
  (forall kind, kind <> [] ->
      Permutation (get_media_files (Some kind) t)
        (filter (fun r => str_eqb (file_type r) kind) t) /\
      forall r, In r (get_media_files (Some kind) t) <->
                In r t /\ file_type r = kind).
Proof.
  split; [|split].
  - intros [ft|]; simpl; [destruct (truthy ft)|]; apply order_by_sorted.
  - apply order_by_perm.
  - intros kind Hk. apply truthy_true in Hk. simpl. rewrite Hk.
    split; [apply order_by_perm|].
    intros r. split.
    + intros H. eapply Permutation_in in H; [|apply order_by_perm].
      apply filter_In in H. rewrite str_eqb_eq in H. exact H.
    + intros H. eapply Permutation_in; [symmetry; apply order_by_perm|].
      apply filter_In. rewrite str_eqb_eq. exact H.
Qed.

Lemma C5_listings_witness :
  Permutation
    (get_media_files (Some video_kind)
       (media_files
          (run_monitor [(5%Z, video_message marked_caption);
                        (6%Z, document_message marked_caption)]
             empty_state)))
    (filter (fun r => str_eqb (file_type r) video_kind)
       (media_files
          (run_monitor [(5%Z, video_message marked_caption);
                        (6%Z, document_message marked_caption)]
             empty_state))).
Proof.
  apply (proj2 (proj2 (C5_listings _)) video_kind). discriminate.
Defined.

(** ** The handlers: empty results *)

Lemma filter_none {A : Type} (f : A -> bool) (l : list A) :
  (forall x, In x l -> f x = false) -> filter f l = [].
Proof.
  induction l as [|x l IH]; simpl; auto. intros H.
  rewrite (H x (or_introl eq_refl)). apply IH. intros y Hy. apply H; auto.
Qed.

(** C8: for the administrator, the summary of an empty table is the fixed
    reply [No media files found in database.], and the listing of a kind of
    which the table has no row is the fixed reply [No videos found in
    database.] or [No PDFs found in database.]; each is an ordinary reply,
    not empty, and nothing is sent to the channel. *)
Theorem C8_empty_results (config : Config) (user_id : Z)
    (send_error : option str) (t : table) :
  user_id = ADMIN_ID config ->
  (t = [] ->
   post_summary config user_id send_error t =
   [reply_text (lit "No media files found in database.")]) /\
  ((forall r, In r t -> file_type r <> video_kind) ->
   get_videos config user_id t =
   [reply_text (lit "No videos found in database.")]) /\
  ((forall r, In r t -> file_type r <> pdf_kind) ->
   get_pdfs config user_id t =
   [reply_text (lit "No PDFs found in database.")]) /\
  lit "No media files found in database." <> [] /\
  lit "No videos found in database." <> [] /\
  lit "No PDFs found in database." <> [].
Proof.
  intros ->. unfold post_summary, get_videos, get_pdfs.
  rewrite Z.eqb_refl. cbn [negb].
  split; [|split; [|split]].
  - intros ->. reflexivity.
  - intros H. cbn [get_media_files truthy video_kind lit].
    change (List.map N_of_ascii (list_ascii_of_string "video"))
      with video_kind.
    rewrite filter_none; [reflexivity|].
    intros r Hr. apply str_eqb_neq. auto.
  - intros H. cbn [get_media_files truthy pdf_kind lit].
    change (List.map N_of_ascii (list_ascii_of_string "pdf")) with pdf_kind.
    rewrite filter_none; [reflexivity|].
    intros r Hr. apply str_eqb_neq. auto.
  - repeat split; discriminate.
Qed.

Lemma C8_empty_results_witness :
  post_summary sample_config 7 None [] =
  [reply_text (lit "No media files found in database.")] /\
  get_videos sample_config 7
    (media_files
       (process_channel_message 0 (document_message marked_caption)
          empty_state)) =
  [reply_text (lit "No videos found in database.")] /\
  get_pdfs sample_config 7
    (media_files
       (process_channel_message 0 (video_message marked_caption)
          empty_state)) =
  [reply_text (lit "No PDFs found in database.")].
Proof.
  split; [|split].
  - apply (proj1 (C8_empty_results sample_config 7 None [] eq_refl)).
    reflexivity.
  - apply (proj1 (proj2 (C8_empty_results sample_config 7 None _ eq_refl))).
    intros r [<-|[]]. vm_compute. discriminate.
  - apply (proj1 (proj2 (proj2
                           (C8_empty_results sample_config 7 None _ eq_refl)))).
    intros r [<-|[]]. vm_compute. discriminate.
Defined.

(** ** The summary: grouping *)

Lemma first_seen_In (l : list str) (c : str) :
  In c (first_seen l) <-> In c l.
Proof.
  induction l as [|x l IH]; simpl; [tauto|].
  rewrite filter_In, IH. destruct (str_eqb c x) eqn:E.
  - apply str_eqb_eq in E. subst. simpl. intuition.
  - apply str_eqb_neq in E. simpl. intuition congruence.
Qed.

Lemma first_seen_NoDup (l : list str) : NoDup (first_seen l).
Proof.
  induction l as [|x l IH]; simpl; constructor.
  - rewrite filter_In, str_eqb_refl. simpl. intros [_ H]; discriminate.
  - apply NoDup_filter; auto.
Qed.

Lemma existsb_str (c : str) (l : list str) :
  existsb (fun c' => str_eqb c' c) l = true <-> In c l.
Proof.
  rewrite existsb_exists. split.
  - intros (x & Hx & E). apply str_eqb_eq in E. subst; auto.
  - intros H. exists c. split; auto. apply str_eqb_refl.
Qed.

Lemma filter_all {A : Type} (f : A -> bool) (l : list A) :
  (forall x, In x l -> f x = true) -> filter f l = l.
Proof.
  induction l as [|x l IH]; simpl; auto. intros H.
  rewrite (H x (or_introl eq_refl)). f_equal. apply IH. intros; apply H; auto.
Qed.

(** A course seen again keeps its place; a new course goes to the end. *)
Lemma first_seen_snoc (l : list str) (c : str) :
  first_seen (l ++ [c]) =
  if existsb (fun c' => str_eqb c' c) l then first_seen l
  else first_seen l ++ [c].
Proof.
  induction l as [|x l IH]; simpl; auto.
  rewrite IH. destruct (str_eqb x c) eqn:Exc; simpl.
  - apply str_eqb_eq in Exc. subst x.
    destruct (existsb (fun c' => str_eqb c' c) l); auto.
    rewrite filter_app. simpl. rewrite str_eqb_refl. simpl.
    rewrite app_nil_r. reflexivity.
  - destruct (existsb (fun c' => str_eqb c' c) l); auto.
    rewrite filter_app. simpl. rewrite str_eqb_sym, Exc. reflexivity.
Qed.

Lemma dict_mem_map (k : str) (F : str -> list row) (keys : list str) :
  dict_mem k (List.map (fun c => (c, F c)) keys) =
  existsb (fun c => str_eqb c k) keys.
Proof.
  unfold dict_mem. induction keys as [|c keys IH]; simpl; auto.
  rewrite IH. reflexivity.
Qed.

Lemma dict_append_map (k : str) (x : row) (F : str -> list row)
    (keys : list str) :
  NoDup keys ->
  dict_append k x (List.map (fun c => (c, F c)) keys) =
  List.map (fun c => (c, if str_eqb c k then F c ++ [x] else F c)) keys.
Proof.
  induction 1 as [|c keys Hc Hnd IH]; simpl; auto.
  destruct (str_eqb c k) eqn:E.
  - f_equal. apply map_ext_in. intros c' Hc'.
    destruct (str_eqb c' k) eqn:E'; auto.
    apply str_eqb_eq in E, E'. subst. contradiction.
  - f_equal. exact IH.
Qed.

Lemma groups_nil : groups [] = [].
Proof. reflexivity. Qed.

(** One turn of the organizing loop takes the groups of the rows seen so
    far to the groups with the next row. *)
Lemma groups_snoc (l : list row) (x : row) :
  groups (l ++ [x]) =
  dict_append (course x) x
    (if dict_mem (course x) (groups l) then groups l
     else groups l ++ [(course x, [])]).
Proof.
  unfold groups. rewrite map_app. simpl List.map.
  rewrite first_seen_snoc, dict_mem_map.
  assert (Hsame : existsb (fun c => str_eqb c (course x))
                    (first_seen (List.map course l)) =
                  existsb (fun c' => str_eqb c' (course x))
                    (List.map course l)).
  { apply eq_true_iff_eq. rewrite !existsb_str. apply first_seen_In. }
  rewrite Hsame.
  destruct (existsb (fun c' => str_eqb c' (course x)) (List.map course l))
    eqn:E.
  - rewrite dict_append_map by apply first_seen_NoDup.
    apply map_ext. intros c. rewrite filter_app. simpl.
    rewrite str_eqb_sym. destruct (str_eqb c (course x)); auto.
    rewrite app_nil_r. reflexivity.
  - replace (List.map
               (fun c => (c, filter (fun r => str_eqb (course r) c) l))
               (first_seen (List.map course l)) ++ [(course x, [])])
      with (List.map
              (fun c => (c, if str_eqb c (course x) then []
                            else filter (fun r => str_eqb (course r) c) l))
              (first_seen (List.map course l) ++ [course x])).
    + rewrite dict_append_map.
      * apply map_ext. intros c. rewrite filter_app. simpl.
        rewrite (str_eqb_sym (course x) c).
        destruct (str_eqb c (course x)) eqn:Ec.
        -- apply str_eqb_eq in Ec. subst c. rewrite filter_none; auto.
           intros r Hr. destruct (str_eqb (course r) (course x)) eqn:Er; auto.
           apply str_eqb_eq in Er.
           assert (Hin : In (course x) (List.map course l))
             by (rewrite <- Er; apply in_map; auto).
           apply (proj2 (existsb_str _ _)) in Hin. congruence.
        -- rewrite app_nil_r. reflexivity.
      * apply NoDup_app; [apply first_seen_NoDup | repeat constructor; auto |].
        intros c Hc [<-|[]]. apply (proj1 (first_seen_In _ _)) in Hc.
        apply (proj2 (existsb_str _ _)) in Hc. congruence.
    + rewrite map_app. simpl. rewrite str_eqb_refl. f_equal.
      apply map_ext_in. intros c Hc. destruct (str_eqb c (course x)) eqn:Ec; auto.
      apply str_eqb_eq in Ec. subst c. apply (proj1 (first_seen_In _ _)) in Hc.
      apply (proj2 (existsb_str _ _)) in Hc. congruence.
Qed.

Lemma organize_groups (l : list row) : organize l = groups l.
Proof.
  induction l as [|x l IH] using rev_ind; [reflexivity|].
  unfold organize in *. rewrite fold_left_app. simpl.
  rewrite IH. symmetry. apply groups_snoc.
Qed.

(** ** The summary: text *)

Lemma fold_left_append {A : Type} (g : A -> str) (l : list A) (acc : str) :
  fold_left (fun text x => text ++ g x) l acc = acc ++ concat (List.map g l).
Proof.
  revert acc; induction l as [|x l IH]; intros acc; simpl.
  - rewrite app_nil_r; reflexivity.
  - rewrite IH, app_assoc. reflexivity.
Qed.

Lemma append_entries_eq (config : Config) (acc : str) (files : list row) :
  append_entries config acc files =
  acc ++ concat (List.map (entry_line config) (firstn 5 files)).
Proof. apply fold_left_append. Qed.

Lemma section_firstn (config : Config) (header acc : str)
    (files : list row) :
  match files with
  | [] => acc
  | _ :: _ => append_entries config (acc ++ header) files
  end = acc ++ section config header (firstn 5 files).
Proof.
  destruct files as [|f files].
  - simpl. rewrite app_nil_r; reflexivity.
  - rewrite append_entries_eq. unfold section.
    cbn [firstn]. rewrite app_assoc. reflexivity.
Qed.

(** The block of a course: its header line, the two sub-lists, and an empty
    line. *)
Lemma course_block_eq (config : Config) (e : str * list row) :
  course_block config e =
  lit "**" ++ fst e ++ lit "**" ++ NL
  ++ section config videos_header (firstn 5 (filter is_video (snd e)))
  ++ section config pdfs_header (firstn 5 (filter is_pdf (snd e)))
  ++ NL.
Proof.
  unfold course_block, append_course.
  fold is_video. fold is_pdf.
  change (fun f => str_eqb (file_type f) video_kind) with is_video.
  change (fun f => str_eqb (file_type f) pdf_kind) with is_pdf.
  rewrite (section_firstn config videos_header).
  rewrite (section_firstn config pdfs_header).
  repeat rewrite <- app_assoc. reflexivity.
Qed.

Lemma append_course_eq (config : Config) (acc : str) (e : str * list row) :
  append_course config acc e = acc ++ course_block config e.
Proof.
  rewrite course_block_eq. unfold append_course.
  change (fun f => str_eqb (file_type f) video_kind) with is_video.
  change (fun f => str_eqb (file_type f) pdf_kind) with is_pdf.
  rewrite (section_firstn config videos_header).
  rewrite (section_firstn config pdfs_header).
  repeat rewrite <- app_assoc. reflexivity.
Qed.

Lemma summary_text_eq (config : Config) (media_files : list row) :
  summary_text config media_files =
  summary_header
  ++ concat (List.map (course_block config) (organize media_files)).
Proof.
  unfold summary_text. generalize summary_header.
  induction (organize media_files) as [|e d IH]; intros acc; simpl.
  - rewrite app_nil_r; reflexivity.
  - rewrite IH, append_course_eq, app_assoc. reflexivity.
Qed.

Lemma firstn_nil_iff {A : Type} (n : nat) (l : list A) :
  firstn (S n) l = [] <-> l = [].
Proof. destruct l; simpl; split; congruence. Qed.

Lemma filter_nil_existsb {A : Type} (f : A -> bool) (l : list A) :
  existsb f l = false <-> filter f l = [].
Proof.
  induction l as [|x l IH]; simpl; [tauto|].
  destruct (f x); simpl; [split; discriminate | exact IH].
Qed.

Lemma section_sub_header (config : Config) (header : str) (f : row -> bool)
    (files : list row) :
  section config header (firstn 5 (filter f files)) =
  if existsb f files
  then header ++ concat (List.map (entry_line config)
                           (firstn 5 (filter f files)))
  else [].
Proof.
  destruct (existsb f files) eqn:E.
  - destruct (filter f files) as [|x l] eqn:Ef.
    + apply filter_nil_existsb in Ef. congruence.
    + reflexivity.
  - apply filter_nil_existsb in E. rewrite E. reflexivity.
Qed.

(** C7: the summary groups the loaded rows by course, the courses in the
    order in which they are first seen and each with its rows in the order
    of the sequence; the text is the header followed by one block per
    course; a block has the Videos sub-header exactly when the course has a
    video row and the PDFs sub-header exactly when it has a pdf row. *)
Theorem C7_grouping_and_sub_headers (config : Config)
    (media_files : list row) :
  List.map fst (organize media_files) =
  first_seen (List.map course media_files) /\
  organize media_files =
  List.map
    (fun c => (c, filter (fun r => str_eqb (course r) c) media_files))
    (first_seen (List.map course media_files)) /\
  summary_text config media_files =
  summary_header
  ++ concat (List.map (course_block config) (organize media_files)) /\
  forall e,
    course_block config e =
    lit "**" ++ fst e ++ lit "**" ++ NL
    ++ (if existsb is_video (snd e)
        then videos_header
             ++ concat (List.map (entry_line config)
                          (firstn 5 (filter is_video (snd e))))
        else [])
    ++ (if existsb is_pdf (snd e)
        then pdfs_header
             ++ concat (List.map (entry_line config)
                          (firstn 5 (filter is_pdf (snd e))))
        else [])
    ++ NL.
Proof.
  split; [|split; [|split]].
  - rewrite organize_groups. unfold groups. rewrite map_map. simpl.
    apply map_id.
  - apply organize_groups.
  - apply summary_text_eq.
  - intros e. rewrite course_block_eq, !section_sub_header. reflexivity.
Qed.

(** The worked example of a course with one video and one document. *)
Example summary_of_two_records :
  let a := mkRow 1 11 video_kind (lit "A") (lit "CS201") Unknown (lit "f1") 9 in
  let b := mkRow 2 12 pdf_kind (lit "B") (lit "CS201") Unknown (lit "f2") 8 in
  summary_text sample_config (get_media_files None [a; b]) =
  summary_header ++ lit "**CS201**" ++ NL
  ++ videos_header ++ entry_line sample_config a
  ++ pdfs_header ++ entry_line sample_config b ++ NL.
Proof. vm_compute. reflexivity. Qed.

(** ** The summary: counting the entries in the text *)

Lemma no_newline_forallb (s : str) :
  forallb not_nl s = true -> no_newline s.
Proof.
  unfold no_newline. rewrite forallb_forall, Forall_forall.
  intros H c Hc ->. specialize (H _ Hc). discriminate.
Qed.

Lemma no_newline_uint (d : Decimal.uint) :
  no_newline (lit (NilEmpty.string_of_uint d)).
Proof.
  induction d; simpl; constructor; auto; discriminate.
Qed.

Lemma no_newline_str_of_int (n : Z) : no_newline (str_of_int n).
Proof.
  unfold str_of_int, NilZero.string_of_int, NilZero.string_of_uint.
  destruct (Z.to_int n) as [d|d].
  - destruct d; try apply no_newline_uint.
    apply no_newline_forallb; reflexivity.
  - change (no_newline (45 :: lit match d with
                                  | Decimal.Nil => "0"%string
                                  | _ => NilEmpty.string_of_uint d
                                  end)).
    constructor; [discriminate|].
    destruct d; try apply no_newline_uint.
    apply no_newline_forallb; reflexivity.
Qed.

(** A whole line counts for one when it starts a line and starts with the
    bullet, and the count goes on behind its newline. *)
Lemma count_line (fresh : bool) (line rest : str) :
  no_newline line ->
  count_entries_from fresh (line ++ nl :: rest) =
  ((if fresh && is_some (strip_prefix (bullet ++ lit " [")
                           (line ++ nl :: rest))
    then 1 else 0) + count_entries_from true rest)%nat.
Proof.
  intros H. revert fresh. induction H as [|c line Hc Hl IH]; intros fresh.
  - reflexivity.
  - cbn [app count_entries_from]. rewrite IH. cbn [andb].
    destruct (N.eqb_spec c nl) as [->|_]; [congruence|].
    cbn [andb]. lia.
Qed.

Lemma entry_line_shape (config : Config) (f : row) :
  entry_line config f =
  (bullet ++ lit " [")
  ++ (title f ++ lit "](https://t.me/" ++ CHANNEL_USERNAME config ++ lit "/"
      ++ str_of_int (message_id f) ++ lit ")") ++ NL.
Proof. unfold entry_line. repeat rewrite <- app_assoc. reflexivity. Qed.

Lemma count_entry_line (config : Config) (f : row) (rest : str) :
  no_newline (CHANNEL_USERNAME config) -> no_newline (title f) ->
  count_entries_from true (entry_line config f ++ rest) =
  S (count_entries_from true rest).
Proof.
  intros Hc Ht. rewrite entry_line_shape.
  set (body := title f ++ _).
  replace (((bullet ++ lit " [") ++ body ++ NL) ++ rest)
    with (((bullet ++ lit " [") ++ body) ++ nl :: rest)
    by (unfold NL; repeat rewrite <- app_assoc; reflexivity).
  rewrite count_line.
  - rewrite <- app_assoc, strip_prefix_app. reflexivity.
  - apply no_newline_app. split.
    + apply no_newline_forallb; reflexivity.
    + unfold body. repeat (apply no_newline_app; split); auto;
        try (apply no_newline_forallb; reflexivity).
      apply no_newline_str_of_int.
Qed.

Lemma count_entry_lines (config : Config) (files : list row) (rest : str) :
  no_newline (CHANNEL_USERNAME config) ->
  Forall (fun f => no_newline (title f)) files ->
  count_entries_from true
    (concat (List.map (entry_line config) files) ++ rest) =
  (length files + count_entries_from true rest)%nat.
Proof.
  intros Hc. induction 1 as [|f files Hf _ IH]; [reflexivity|].
  cbn [List.map concat length].
  rewrite <- app_assoc, count_entry_line, IH; auto.
Qed.

(** A line that does not start with the bullet counts for nothing. *)
Lemma count_other_line (line rest : str) :
  no_newline line ->
  strip_prefix (bullet ++ lit " [") (line ++ nl :: rest) = None ->
  count_entries_from true (line ++ nl :: rest) = count_entries_from true rest.
Proof. intros H E. rewrite count_line, E; auto. Qed.

Lemma count_section (config : Config) (hline : str) (files : list row)
    (rest : str) :
  no_newline (CHANNEL_USERNAME config) ->
  Forall (fun f => no_newline (title f)) files ->
  no_newline hline ->
  (forall tail, strip_prefix (bullet ++ lit " [") (hline ++ tail) = None) ->
  count_entries_from true (section config (hline ++ NL) files ++ rest) =
  (length files + count_entries_from true rest)%nat.
Proof.
  intros Hc Hf Hh Hp. destruct files as [|f files]; [reflexivity|].
  unfold section.
  replace (((hline ++ NL)
            ++ concat (List.map (entry_line config) (f :: files))) ++ rest)
    with (hline ++ nl
            :: (concat (List.map (entry_line config) (f :: files)) ++ rest))
    by (unfold NL; repeat rewrite <- app_assoc; reflexivity).
  rewrite count_other_line; auto. apply count_entry_lines; auto.
Qed.

Lemma Forall_firstn {A : Type} (P : A -> Prop) (n : nat) (l : list A) :
  Forall P l -> Forall P (firstn n l).
Proof.
  intros H. rewrite Forall_forall in *. intros x Hx. apply H.
  rewrite <- (firstn_skipn n l). apply in_or_app; auto.
Qed.

Lemma Forall_filter {A : Type} (P : A -> Prop) (f : A -> bool) (l : list A) :
  Forall P l -> Forall P (filter f l).
Proof.
  intros H. rewrite Forall_forall in *. intros x Hx. apply H.
  apply filter_In in Hx. tauto.
Qed.

Lemma count_videos_section (config : Config) (files : list row) (rest : str) :
  no_newline (CHANNEL_USERNAME config) ->
  Forall (fun f => no_newline (title f)) files ->
  count_entries_from true (section config videos_header files ++ rest) =
  (length files + count_entries_from true rest)%nat.
Proof.
  intros Hc Hf.
  apply (count_section config ([0xF8FF; 0xFC; 0xE9; 0x2022]
                               ++ lit " **Videos:**")); auto.
  apply no_newline_forallb; reflexivity.
Qed.

Lemma count_pdfs_section (config : Config) (files : list row) (rest : str) :
  no_newline (CHANNEL_USERNAME config) ->
  Forall (fun f => no_newline (title f)) files ->
  count_entries_from true (section config pdfs_header files ++ rest) =
  (length files + count_entries_from true rest)%nat.
Proof.
  intros Hc Hf.
  apply (count_section config ([0xF8FF; 0xFC; 0xEC; 0xD1]
                               ++ lit " **PDFs:**")); auto.
  apply no_newline_forallb; reflexivity.
Qed.

Lemma count_course_block (config : Config) (e : str * list row) :
  no_newline (CHANNEL_USERNAME config) ->
  no_newline (fst e) ->
  Forall (fun f => no_newline (title f)) (snd e) ->
  count_entries (course_block config e) =
  (length (firstn 5 (filter is_video (snd e)))
   + length (firstn 5 (filter is_pdf (snd e))))%nat.
Proof.
  intros Hc Hk Hf. unfold count_entries. rewrite course_block_eq.
  replace (lit "**" ++ fst e ++ lit "**" ++ NL
           ++ section config videos_header
                (firstn 5 (filter is_video (snd e)))
           ++ section config pdfs_header (firstn 5 (filter is_pdf (snd e)))
           ++ NL)
    with ((lit "**" ++ fst e ++ lit "**") ++ nl
            :: (section config videos_header
                  (firstn 5 (filter is_video (snd e)))
                ++ section config pdfs_header
                     (firstn 5 (filter is_pdf (snd e)))
                ++ [] ++ nl :: []))
    by (unfold NL; repeat rewrite <- app_assoc; reflexivity).
  rewrite count_other_line.
  - rewrite count_videos_section, count_pdfs_section;
      auto using Forall_firstn, Forall_filter.
  - repeat (apply no_newline_app; split); auto;
      apply no_newline_forallb; reflexivity.
  - reflexivity.
Qed.

Lemma Unknown_no_newline : no_newline Unknown.
Proof. apply no_newline_forallb; reflexivity. Qed.

Lemma re_search_no_newline (m s g : str) :
  re_search m s = Some g -> no_newline (strip g).
Proof.
  intros H. apply re_search_Some in H. destruct H as (j & _ & Hg).
  apply spaces_then_capture_Some in Hg.
  eapply no_newline_incl; [apply strip_incl | tauto].
Qed.

Lemma extract_course_no_newline (caption : str) :
  no_newline (extract_course caption).
Proof.
  unfold extract_course.
  destruct (re_search course_marker caption) eqn:E.
  - eapply re_search_no_newline; eauto.
  - apply Unknown_no_newline.
Qed.

(** The rows the monitor stores have titles and courses of one line. *)
Lemma monitor_rows_one_line (ms : list (Z * Message)) :
  Forall (fun r => no_newline (title r) /\ no_newline (course r))
    (media_files (run_monitor ms empty_state)).
Proof.
  apply run_monitor_rows; [|constructor].
  intros now message t ttl Et _. unfold new_row; cbn [title course]. split.
  - eapply extract_title_no_newline; eauto.
  - apply extract_course_no_newline.
Qed.

Lemma block_shape_holds (config : Config) (e : str * list row) :
  block_shape config e.
Proof.
  unfold block_shape. split; [apply course_block_eq|].
  rewrite !length_firstn. repeat split; lia.
Qed.

Lemma block_counts_holds (config : Config) (e : str * list row) :
  no_newline (CHANNEL_USERNAME config) ->
  no_newline (fst e) ->
  Forall (fun f => no_newline (title f)) (snd e) ->
  block_counts config e.
Proof.
  intros Hc Hk Hf. unfold block_counts.
  assert (Hv : count_entries
                 (section config videos_header
                    (firstn 5 (filter is_video (snd e)))) =
               length (firstn 5 (filter is_video (snd e)))).
  { unfold count_entries.
    rewrite <- (app_nil_r (section _ _ _)), count_videos_section
      by auto using Forall_firstn, Forall_filter.
    simpl. lia. }
  assert (Hp : count_entries
                 (section config pdfs_header
                    (firstn 5 (filter is_pdf (snd e)))) =
               length (firstn 5 (filter is_pdf (snd e)))).
  { unfold count_entries.
    rewrite <- (app_nil_r (section _ _ _)), count_pdfs_section
      by auto using Forall_firstn, Forall_filter.
    simpl. lia. }
  rewrite Hv, Hp, count_course_block; auto.
  rewrite !length_firstn. repeat split; lia.
Qed.

Lemma groups_one_line (l : list row) :
  Forall (fun r => no_newline (title r) /\ no_newline (course r)) l ->
  Forall (fun e => no_newline (fst e) /\
                   Forall (fun f => no_newline (title f)) (snd e))
    (groups l).
Proof.
  intros H. unfold groups. apply Forall_forall. intros e He.
  apply in_map_iff in He. destruct He as (c & <- & Hc). simpl.
  rewrite Forall_forall in H. split.
  - apply (proj1 (first_seen_In _ _)) in Hc. apply in_map_iff in Hc.
    destruct Hc as (r & <- & Hr). apply H; auto.
  - apply Forall_forall. intros f Hf. apply filter_In in Hf.
    apply H; tauto.
Qed.

(** C6: in the summary every course block shows at most five video entries
    and at most five document entries, the first five of each kind when the
    course has more; counted in the text, when titles, courses and the
    channel name are of one line, as they are for every table the monitor
    fills, the Videos sub-list and the PDFs sub-list have at most five entry
    lines each. *)
Theorem C6_at_most_five_entries (config : Config) :
  (forall media_files,
      summary_text config media_files =
      summary_header
      ++ concat (List.map (course_block config) (organize media_files)) /\
      Forall (block_shape config) (organize media_files)) /\
  (forall media_files,
      no_newline (CHANNEL_USERNAME config) ->
      Forall (fun r => no_newline (title r) /\ no_newline (course r))
        media_files ->
      Forall (block_counts config) (organize media_files)) /\
  (forall ms,
      no_newline (CHANNEL_USERNAME config) ->
      Forall (block_counts config)
        (organize
           (get_media_files None (media_files (run_monitor ms empty_state))))).
Proof.
  assert (Hcount : forall media_files,
             no_newline (CHANNEL_USERNAME config) ->
             Forall (fun r => no_newline (title r) /\ no_newline (course r))
               media_files ->
             Forall (block_counts config) (organize media_files)).
  { intros l Hc Hl. rewrite organize_groups.
    eapply Forall_impl; [|apply groups_one_line; exact Hl].
    intros e [Hk Hf]. apply block_counts_holds; auto. }
  split; [|split]; auto.
  - intros l. split; [apply summary_text_eq|].
    apply Forall_forall. intros e _. apply block_shape_holds.
  - intros ms Hc. apply Hcount; auto.
    eapply Permutation_Forall; [symmetry; apply order_by_perm|].
    apply monitor_rows_one_line.
Qed.

Lemma C6_at_most_five_entries_witness :
  Forall (block_counts sample_config)
    (organize
       (get_media_files None
          (media_files (run_monitor seven_videos empty_state)))) /\
  List.map (fun e => count_entries (course_block sample_config e))
    (organize
       (get_media_files None
          (media_files (run_monitor seven_videos empty_state)))) = [5%nat].
Proof.
  split.
  - apply (proj2 (proj2 (C6_at_most_five_entries sample_config))).
    apply no_newline_forallb; reflexivity.
  - vm_compute; reflexivity.
Defined.

(** ** The extractors: further properties *)

Lemma lstrip_fixed (s : str) :
  (forall c s', s = c :: s' -> isspace c = false) -> lstrip s = s.
Proof.
  destruct s as [|c s]; [reflexivity|]. intros H.
  unfold lstrip. cbn [drop_while]. rewrite (H c s eq_refl). reflexivity.
Qed.

Lemma rstrip_fixed (s : str) :
  (forall l c, s = l ++ [c] -> isspace c = false) -> rstrip s = s.
Proof.
  intros H. unfold rstrip.
  destruct (rev s) as [|c k] eqn:E.
  - apply (f_equal (@rev N)) in E. rewrite rev_involutive in E.
    subst s. reflexivity.
  - assert (Hs : s = rev k ++ [c]).
    { rewrite <- (rev_involutive s), E. reflexivity. }
    cbn [drop_while]. rewrite (H _ _ Hs). symmetry. exact Hs.
Qed.

(** Stripping twice is stripping once. *)
Lemma strip_strip (s : str) : strip (strip s) = strip s.
Proof.
  unfold strip at 1.
  rewrite (lstrip_fixed (strip s)) by (intros c s'; apply strip_head).
  apply rstrip_fixed. intros l c. apply strip_last.
Qed.

Lemma is_piece_refl (s : str) : is_piece s s.
Proof. exists [], []. rewrite app_nil_r. reflexivity. Qed.






Lemma skipn_piece (n : nat) (s : str) : is_piece (skipn n s) s.
Proof.
  exists (firstn n s), []. rewrite app_nil_r. symmetry. apply firstn_skipn.
Qed.




(** X1: without a title marker there is no title and nothing is stored, also
    when the caption is absent or empty; and a title is only ever found in
    a caption that has one of the two title markers. *)
Theorem no_title_marker_no_record :
  (forall caption,
      index_of video_marker caption = None ->
      index_of pdf_marker caption = None ->
      extract_title caption = None) /\
  (forall caption t,
      extract_title caption = Some t ->
      index_of video_marker caption <> None \/
      index_of pdf_marker caption <> None) /\
  (forall now message st,
      index_of video_marker (caption_or_empty message) = None ->
      index_of pdf_marker (caption_or_empty message) = None ->
      process_channel_message now message st = st) /\
  (forall now message st,
      caption message = None \/ caption message = Some [] ->
      process_channel_message now message st = st).
Proof.
  assert (A : forall caption,
             index_of video_marker caption = None ->
             index_of pdf_marker caption = None ->
             extract_title caption = None).
  { intros caption Hv Hp. unfold extract_title.
    rewrite (index_of_None_search _ _ Hv), (index_of_None_search _ _ Hp).
    reflexivity. }
  split; [exact A|]. split; [|split].
  - intros caption t. unfold extract_title.
    destruct (re_search video_marker caption) eqn:Ev.
    + intros _. left. eapply re_search_Some_present; eauto.
    + destruct (re_search pdf_marker caption) eqn:Ep; [|discriminate].
      intros _. right. eapply re_search_Some_present; eauto.
  - intros now message st Hv Hp. apply process_skips. right; left. auto.
  - intros now message st H. apply process_skips. right; left.
    assert (E : caption_or_empty message = []).
    { unfold caption_or_empty. destruct H as [-> | ->]; reflexivity. }
    rewrite E. apply A; reflexivity.
Qed.

Lemma no_title_marker_no_record_witness :
  extract_title (lit "lecture notes, week 3") = None /\
  process_channel_message 0
    (video_message (lit "lecture notes, week 3")) empty_state = empty_state /\
  process_channel_message 0
    (mkMessage 8 (Some (mkMedia (lit "v"))) None None) empty_state
  = empty_state.
Proof.
  destruct no_title_marker_no_record as (A & _ & B & C).
  split; [|split].
  - apply A; vm_compute; reflexivity.
  - apply B; vm_compute; reflexivity.
  - apply C. left; reflexivity.
Defined.

(** X2: every value an extractor returns is trimmed and of one line: stripping
    it again changes nothing and it has no newline. *)
Theorem extracted_values_trimmed (caption : str) :
  (forall t, extract_title caption = Some t ->
             strip t = t /\ no_newline t) /\
  (strip (extract_course caption) = extract_course caption /\
   no_newline (extract_course caption)) /\
  (strip (extract_extracted_by caption) = extract_extracted_by caption /\
   no_newline (extract_extracted_by caption)).
Proof.
  split; [|split].
  - intros t Ht. split; [|eapply extract_title_no_newline; eauto].
    unfold extract_title in Ht.
    destruct (re_search video_marker caption);
      [|destruct (re_search pdf_marker caption)];
      inversion Ht; subst; apply strip_strip.
  - split; [|apply extract_course_no_newline].
    unfold extract_course. destruct (re_search course_marker caption).
    + apply strip_strip.
    + vm_compute; reflexivity.
  - unfold extract_extracted_by.
    destruct (re_search extracted_marker caption) eqn:E.
    + split; [apply strip_strip | eapply re_search_no_newline; eauto].
    + split; [vm_compute; reflexivity | apply Unknown_no_newline].
Qed.

Lemma extracted_values_trimmed_witness :
  strip (lit "Intro to Graphs") = lit "Intro to Graphs" /\
  no_newline (lit "Intro to Graphs").
Proof.
  apply (proj1 (extracted_values_trimmed marked_caption)).
  vm_compute; reflexivity.
Defined.



(** ** The store and the monitor: further properties *)

Lemma next_rowid_above (t : table) :
  (1 <= next_rowid t)%Z /\
  Forall (fun r => (row_id r < next_rowid t)%Z) t.
Proof.
  unfold next_rowid. induction t as [|x t [IH1 IH2]]; cbn [fold_right].
  - split; [lia | constructor].
  - split; [lia|]. constructor; [lia|].
    eapply Forall_impl; [|exact IH2]. cbv beta. intros r Hr. lia.
Qed.

(** X5: [store_media_data] appends one row with the values it is given; its id
    is positive and above every id in the table, so ids that were distinct
    stay distinct. *)
Theorem store_media_data_fresh_id (now mid : Z)
    (ft ttl crs by_ fid : str) (t : table) :
  exists r,
    store_media_data now mid ft ttl crs by_ fid t = t ++ [r] /\
    r = mkRow (row_id r) mid ft ttl crs by_ fid now /\
    (1 <= row_id r)%Z /\
    Forall (fun x => (row_id x < row_id r)%Z) t /\
    (NoDup (List.map row_id t) ->
     NoDup (List.map row_id
              (store_media_data now mid ft ttl crs by_ fid t))).
Proof.
  unfold store_media_data. eexists. split; [reflexivity|].
  destruct (next_rowid_above t) as [H1 H2]. cbn [row_id].
  repeat split; auto.
  intros Hnd. rewrite map_app. cbn [List.map row_id].
  apply NoDup_app; auto.
  - repeat constructor. intros [].
  - intros z Hz [<-|[]]. apply in_map_iff in Hz.
    destruct Hz as (x & Hx & Hin). rewrite Forall_forall in H2.
    specialize (H2 x Hin). lia.
Qed.

Lemma store_media_data_fresh_id_witness :
  NoDup (List.map row_id
           (store_media_data 9 77 video_kind (lit "T") Unknown Unknown
              (lit "f")
              (media_files (run_monitor two_messages empty_state)))).
Proof.
  destruct (store_media_data_fresh_id 9 77 video_kind (lit "T") Unknown
              Unknown (lit "f")
              (media_files (run_monitor two_messages empty_state)))
    as (r & _ & _ & _ & _ & H).
  apply H. vm_compute. repeat constructor; simpl; intuition discriminate.
Defined.

(** The two outcomes of a message, with the log. *)
Lemma process_outcomes (now : Z) (message : Message) (st : state) :
  process_channel_message now message st = st \/
  exists r,
    stems_from r now message /\
    row_id r = next_rowid (media_files st) /\
    process_channel_message now message st =
    mkState (media_files st ++ [r]) (logged st ++ [log_line r]).
Proof.
  destruct (has_payload message) eqn:Hp;
    [|left; apply process_skips; auto].
  destruct (extract_title (caption_or_empty message)) as [t|] eqn:Et;
    [|left; apply process_skips; auto].
  destruct t as [|c t]; [left; apply process_skips; auto|].
  right. exists (new_row now message (media_files st) (c :: t)).
  split; [|split].
  - unfold stems_from, new_row, payload_reference; cbn.
    repeat split; auto; discriminate.
  - reflexivity.
  - rewrite (process_stores now message st (c :: t)); auto; discriminate.
Qed.

Lemma run_monitor_cons (x : Z * Message) (ms : list (Z * Message))
    (st : state) :
  run_monitor (x :: ms) st =
  run_monitor ms (process_channel_message (fst x) (snd x) st).
Proof. reflexivity. Qed.

(** What one message keeps, the whole run keeps. *)
Lemma run_monitor_keeps (I : state -> Prop) :
  (forall now message st, I st -> I (process_channel_message now message st)) ->
  forall ms st, I st -> I (run_monitor ms st).
Proof.
  intros Hstep ms. induction ms as [|x ms IH]; intros st Hst; auto.
  rewrite run_monitor_cons. apply IH. apply Hstep. exact Hst.
Qed.

(** X6: the monitor only ever appends: the rows and the log lines that were
    there stay as they are, in front, and a run adds at most one row and one
    log line per message. *)
Theorem monitor_append_only (ms : list (Z * Message)) (st : state) :
  exists rows lines,
    media_files (run_monitor ms st) = media_files st ++ rows /\
    logged (run_monitor ms st) = logged st ++ lines /\
    length rows = length lines /\
    (length rows <= length ms)%nat.
Proof.
  revert st; induction ms as [|[now m] ms IH]; intros st.
  - exists [], []. rewrite !app_nil_r. repeat split; auto.
  - rewrite run_monitor_cons. cbn [fst snd].
    destruct (IH (process_channel_message now m st))
      as (rows & lines & Hr & Hl & Hlen & Hle).
    destruct (process_outcomes now m st) as [E|(r & _ & _ & E)];
      rewrite E in *.
    + exists rows, lines. repeat split; auto. simpl; lia.
    + cbn [media_files logged] in Hr, Hl.
      exists (r :: rows), (log_line r :: lines).
      rewrite Hr, Hl, <- !app_assoc. repeat split; simpl; auto; lia.
Qed.

Lemma seq_Z_snoc (n : nat) :
  List.map Z.of_nat (seq 1 (S n)) =
  List.map Z.of_nat (seq 1 n) ++ [Z.of_nat n + 1]%Z.
Proof.
  rewrite seq_S, map_app. simpl. do 2 f_equal. lia.
Qed.

Lemma next_rowid_of_consecutive (t : table) :
  List.map row_id t = List.map Z.of_nat (seq 1 (length t)) ->
  next_rowid t = (Z.of_nat (length t) + 1)%Z.
Proof.
  induction t as [|r t IH] using rev_ind; [reflexivity|].
  rewrite length_app, Nat.add_comm. cbn [length Nat.add].
  rewrite map_app, seq_Z_snoc. cbn [List.map]. intros H.
  apply app_inj_tail in H. destruct H as [Ht Hr].
  rewrite next_rowid_snoc, (IH Ht), Hr. lia.
Qed.

(** X7: started on an empty table, the monitor numbers the rows 1, 2, 3, ... in
    the order in which it stores them. *)
Theorem monitor_ids_consecutive (ms : list (Z * Message)) :
  List.map row_id (media_files (run_monitor ms empty_state)) =
  List.map Z.of_nat
    (seq 1 (length (media_files (run_monitor ms empty_state)))).
Proof.
  apply (run_monitor_keeps
           (fun st => List.map row_id (media_files st) =
                      List.map Z.of_nat (seq 1 (length (media_files st)))));
    [|reflexivity].
  intros now m st Hst.
  destruct (process_outcomes now m st) as [->|(r & _ & Hid & ->)]; auto.
  cbn [media_files]. rewrite length_app, Nat.add_comm. cbn [length Nat.add].
  rewrite map_app, seq_Z_snoc, <- Hst. cbn [List.map]. f_equal.
  rewrite Hid, (next_rowid_of_consecutive _ Hst). reflexivity.
Qed.

(** X8: every row in the table of a run started empty is what handling one of
    the messages of the run stores: it has that message's id, clock value,
    extracted title, course and attribution, the kind of its payload and
    its payload reference. *)
Theorem monitor_rows_stem_from_messages (ms : list (Z * Message)) :
  Forall (fun r => exists now message,
                     In (now, message) ms /\ stems_from r now message)
    (media_files (run_monitor ms empty_state)).
Proof.
  assert (G : forall ms st,
             Forall (fun r => In r (media_files st) \/
                              exists now message,
                                In (now, message) ms /\
                                stems_from r now message)
               (media_files (run_monitor ms st))).
  { clear ms. intros ms. induction ms as [|[now m] ms IH]; intros st.
    - apply Forall_forall. intros r Hr. left; exact Hr.
    - rewrite run_monitor_cons. cbn [fst snd].
      eapply Forall_impl; [|apply IH].
      intros r [Hr|(now' & m' & Hin & Hs)].
      + destruct (process_outcomes now m st) as [E|(r' & Hs & _ & E)];
          rewrite E in Hr; auto.
        cbn [media_files] in Hr. apply in_app_or in Hr.
        destruct Hr as [Hr|[<-|[]]]; auto.
        right. exists now, m. split; [left; reflexivity | exact Hs].
      + right. exists now', m'. split; [right; exact Hin | exact Hs]. }
  eapply Forall_impl; [|apply (G ms empty_state)].
  intros r [[]|H]. exact H.
Qed.

(** X9: the log has one line per stored row, in the same order, naming the kind
    and the title of the row; a run keeps it so. *)
Theorem monitor_log_matches_rows (ms : list (Z * Message)) (st : state) :
  logged st = List.map log_line (media_files st) ->
  logged (run_monitor ms st) =
  List.map log_line (media_files (run_monitor ms st)).
Proof.
  apply (run_monitor_keeps
           (fun st => logged st = List.map log_line (media_files st))).
  intros now m s Hs.
  destruct (process_outcomes now m s) as [->|(r & _ & _ & ->)]; auto.
  cbn [media_files logged]. rewrite map_app, Hs. reflexivity.
Qed.

Lemma monitor_log_matches_rows_witness :
  logged (run_monitor two_messages empty_state) =
  List.map log_line (media_files (run_monitor two_messages empty_state)).
Proof.
  apply (monitor_log_matches_rows two_messages empty_state). reflexivity.
Defined.

(** ** Listings: further properties *)

Lemma order_by_rev_acc (l acc : list row) :
  StronglySorted older_first l ->
  (forall x r, In x acc -> In r l -> older_first x r) ->
  fold_left (fun acc r => insert_desc r acc) l acc = rev l ++ acc.
Proof.
  revert acc; induction l as [|r l IH]; intros acc Hs Hacc; [reflexivity|].
  apply StronglySorted_inv in Hs. destruct Hs as [Hs Hr].
  cbn [fold_left rev]. rewrite <- app_assoc. cbn [app].
  assert (E : insert_desc r acc = r :: acc).
  { destruct acc as [|x acc]; [reflexivity|]. cbn [insert_desc].
    assert (H : older_first x r) by (apply Hacc; left; reflexivity).
    unfold older_first in H. apply Z.ltb_lt in H. rewrite H. reflexivity. }
  rewrite E. apply IH; auto.
  intros x r' [<-|Hx] Hr'.
  - rewrite Forall_forall in Hr. apply Hr; exact Hr'.
  - apply Hacc; [exact Hx | right; exact Hr'].
Qed.

Lemma StronglySorted_filter {A : Type} (R : A -> A -> Prop)
    (f : A -> bool) (l : list A) :
  StronglySorted R l -> StronglySorted R (filter f l).
Proof.
  induction 1 as [|x l Hl IH Hx]; simpl; [constructor|].
  destruct (f x); auto. constructor; auto.
  apply Forall_filter; exact Hx.
Qed.

(** X11: when the rows of the table have strictly increasing timestamps, that
    is when no two were stored within one second, a listing is the table,
    or its rows of the wanted kind, read backwards: newest first. *)
Theorem listing_is_table_reversed (t : table) :
  StronglySorted older_first t ->
  get_media_files None t = rev t /\
  forall kind, kind <> [] ->
    get_media_files (Some kind) t =
    rev (filter (fun r => str_eqb (file_type r) kind) t).
Proof.
  intros Hs. split.
  - unfold get_media_files, order_by_timestamp_desc.
    rewrite order_by_rev_acc; auto.
    + apply app_nil_r.
    + intros x r [].
  - intros kind Hk. apply truthy_true in Hk.
    unfold get_media_files, order_by_timestamp_desc. rewrite Hk.
    rewrite order_by_rev_acc.
    + apply app_nil_r.
    + apply StronglySorted_filter; exact Hs.
    + intros x r [].
Qed.

Lemma listing_is_table_reversed_witness :
  get_media_files None (media_files (run_monitor two_messages empty_state)) =
  rev (media_files (run_monitor two_messages empty_state)).
Proof.
  apply (listing_is_table_reversed
           (media_files (run_monitor two_messages empty_state))).
  vm_compute. repeat constructor.
Defined.

Lemma partition_perm {A : Type} (f g : A -> bool) (l : list A) :
  Forall (fun x => f x = negb (g x)) l ->
  Permutation l (filter f l ++ filter g l).
Proof.
  induction 1 as [|x l Hx _ IH]; simpl; [constructor|].
  rewrite Hx. destruct (g x); simpl.
  - apply Permutation_cons_app; exact IH.
  - constructor; exact IH.
Qed.

Lemma video_kind_not_pdf_kind : video_kind <> pdf_kind.
Proof. discriminate. Qed.

Lemma known_kind_split (r : row) :
  known_kind r -> is_video r = negb (is_pdf r).
Proof.
  unfold known_kind, is_video, is_pdf. intros [E|E]; rewrite E.
  - rewrite str_eqb_refl. reflexivity.
  - rewrite str_eqb_refl. reflexivity.
Qed.

Lemma monitor_rows_known_kind (ms : list (Z * Message)) :
  Forall known_kind (media_files (run_monitor ms empty_state)).
Proof.
  apply run_monitor_rows; [|constructor].
  intros now message t ttl _ _. unfold known_kind, new_row; cbn [file_type].
  destruct (is_some (video message)); auto.
Qed.

(** X12: when every row is of kind video or pdf, as in every table the monitor
    fills, the video listing and the pdf listing together hold the rows of
    the full listing, each row once. *)
Theorem kind_listings_split_the_table :
  (forall t, Forall known_kind t ->
     Permutation (get_media_files None t)
       (get_media_files (Some video_kind) t
        ++ get_media_files (Some pdf_kind) t)) /\
  (forall ms,
     let t := media_files (run_monitor ms empty_state) in
     Permutation (get_media_files None t)
       (get_media_files (Some video_kind) t
        ++ get_media_files (Some pdf_kind) t)).
Proof.
  assert (A : forall t, Forall known_kind t ->
     Permutation (get_media_files None t)
       (get_media_files (Some video_kind) t
        ++ get_media_files (Some pdf_kind) t)).
  { intros t Ht. unfold get_media_files.
    change (truthy video_kind) with true. change (truthy pdf_kind) with true.
    cbv iota. rewrite !order_by_perm.
    apply (partition_perm is_video is_pdf).
    eapply Forall_impl; [|exact Ht]. apply known_kind_split. }
  split; [exact A|]. intros ms t. apply A. apply monitor_rows_known_kind.
Qed.

Lemma kind_listings_split_the_table_witness :
  Permutation
    (get_media_files None [mkRow 1 5 video_kind [] [] [] [] 3;
                           mkRow 2 6 pdf_kind [] [] [] [] 3])
    (get_media_files (Some video_kind)
       [mkRow 1 5 video_kind [] [] [] [] 3;
        mkRow 2 6 pdf_kind [] [] [] [] 3]
     ++ get_media_files (Some pdf_kind)
          [mkRow 1 5 video_kind [] [] [] [] 3;
           mkRow 2 6 pdf_kind [] [] [] [] 3]).
Proof.
  apply (proj1 kind_listings_split_the_table).
  constructor; [left; reflexivity|].
  constructor; [right; reflexivity|].
  constructor.
Defined.

(** ** The handlers: further properties *)

(** X13: a user who is not the administrator gets the refusal and nothing else
    from every command: the reply does not depend on the table and nothing
    is sent to the channel. *)
Theorem handlers_refuse_other_users (config : Config) (user_id : Z)
    (send_error : option str) (t : table) :
  user_id <> ADMIN_ID config ->
  start config user_id =
    [reply_text (lit "You are not authorized to use this bot.")] /\
  post_summary config user_id send_error t =
    [reply_text (lit "You are not authorized to use this command.")] /\
  get_videos config user_id t =
    [reply_text (lit "You are not authorized to use this command.")] /\
  get_pdfs config user_id t =
    [reply_text (lit "You are not authorized to use this command.")].
Proof.
  intros H. apply Z.eqb_neq in H.
  unfold start, post_summary, get_videos, get_pdfs. rewrite H.
  repeat split.
Qed.

Lemma handlers_refuse_other_users_witness :
  post_summary sample_config 8 None
    (media_files (run_monitor two_messages empty_state)) =
  [reply_text (lit "You are not authorized to use this command.")].
Proof.
  apply (handlers_refuse_other_users sample_config 8 None
           (media_files (run_monitor two_messages empty_state))).
  discriminate.
Defined.




(** ** The summary: further properties *)

Lemma filter_or_perm {A : Type} (f g : A -> bool) (l : list A) :
  (forall x, In x l -> f x = true -> g x = false) ->
  Permutation (filter (fun x => f x || g x) l) (filter f l ++ filter g l).
Proof.
  induction l as [|x l IH]; intros H; simpl; [constructor|].
  assert (IH' : Permutation (filter (fun x => f x || g x) l)
                  (filter f l ++ filter g l))
    by (apply IH; intros y Hy; apply H; right; exact Hy).
  destruct (f x) eqn:Ef; simpl.
  - rewrite (H x (or_introl eq_refl) Ef). constructor; exact IH'.
  - destruct (g x); [|exact IH'].
    apply Permutation_cons_app; exact IH'.
Qed.

Lemma groups_concat_perm (l : list row) (ks : list str) :
  NoDup ks ->
  Permutation
    (concat (List.map (fun c => filter (fun r => str_eqb (course r) c) l) ks))
    (filter (fun r => existsb (fun c => str_eqb (course r) c) ks) l).
Proof.
  induction 1 as [|k ks Hk Hnd IH]; simpl.
  - rewrite filter_none; auto.
  - rewrite IH. symmetry.
    apply (filter_or_perm (fun r => str_eqb (course r) k)
             (fun r => existsb (fun c => str_eqb (course r) c) ks)).
    intros r _ E. apply str_eqb_eq in E.
    destruct (existsb (fun c => str_eqb (course r) c) ks) eqn:Ex; auto.
    apply existsb_exists in Ex. destruct Ex as (c & Hc & Ec).
    apply str_eqb_eq in Ec. subst. contradiction.
Qed.

Lemma groups_partition (l : list row) :
  Permutation (concat (List.map snd (groups l))) l /\
  NoDup (List.map fst (groups l)) /\
  Forall (fun e => snd e <> [] /\
                   Forall (fun r => course r = fst e) (snd e))
    (groups l).
Proof.
  unfold groups. split; [|split].
  - rewrite map_map. cbn [snd].
    rewrite groups_concat_perm by apply first_seen_NoDup.
    rewrite filter_all; auto.
    intros r Hr. apply existsb_exists. exists (course r). split.
    + apply first_seen_In. apply in_map; exact Hr.
    + apply str_eqb_refl.
  - rewrite map_map. cbn [fst]. rewrite map_id. apply first_seen_NoDup.
  - apply Forall_forall. intros e He. apply in_map_iff in He.
    destruct He as (c & <- & Hc). cbn [fst snd]. split.
    + apply (proj1 (first_seen_In _ _)) in Hc. apply in_map_iff in Hc.
      destruct Hc as (r & Hr & Hin).
      intros E.
      assert (Hf : In r (filter (fun r => str_eqb (course r) c) l)).
      { apply filter_In. split; auto. apply str_eqb_eq; exact Hr. }
      rewrite E in Hf. exact Hf.
    + apply Forall_forall. intros r Hr. apply filter_In in Hr.
      apply str_eqb_eq. tauto.
Qed.

(** X15: grouping loses no row and makes none up: the groups, one after the
    other, hold the rows of the sequence, each once; no course has two
    groups; no group is empty, and the rows of a group are of its course. *)
Theorem organize_keeps_every_row (media_files : list row) :
  Permutation (concat (List.map snd (organize media_files))) media_files /\
  NoDup (List.map fst (organize media_files)) /\
  Forall (fun e => snd e <> [] /\
                   Forall (fun r => course r = fst e) (snd e))
    (organize media_files).
Proof.
  rewrite organize_groups. destruct (groups_partition media_files)
    as (P & N & F).
  split; [exact P|]. split; [exact N | exact F].
Qed.

Lemma groups_known_kind (l : list row) :
  Forall known_kind l ->
  Forall (fun e => Forall known_kind (snd e)) (groups l).
Proof.
  intros H. unfold groups. apply Forall_forall. intros e He.
  apply in_map_iff in He. destruct He as (c & <- & _). cbn [snd].
  apply Forall_filter; exact H.
Qed.

Lemma known_kind_shown (files : list row) :
  files <> [] -> Forall known_kind files ->
  (1 <= length (firstn 5 (filter is_video files))
        + length (firstn 5 (filter is_pdf files)))%nat.
Proof.
  destruct files as [|r files]; [congruence|]. intros _ H.
  apply Forall_inv in H. pose proof (known_kind_split r H) as E.
  cbn [filter]. rewrite E. destruct (is_pdf r); simpl; lia.
Qed.

(** X16: in the summary of a table the monitor filled, no course block is bare:
    counted in the text, a block has at least one entry line and at most
    ten. *)
Theorem summary_blocks_have_entries (config : Config)
    (ms : list (Z * Message)) :
  no_newline (CHANNEL_USERNAME config) ->
  Forall (fun e =>
            (1 <= count_entries (course_block config e) <= 10)%nat)
    (organize
       (get_media_files None (media_files (run_monitor ms empty_state)))).
Proof.
  intros Hc.
  set (l := get_media_files None (media_files (run_monitor ms empty_state))).
  assert (Hline : Forall (fun r => no_newline (title r) /\
                                   no_newline (course r)) l).
  { eapply Permutation_Forall; [symmetry; apply order_by_perm|].
    apply monitor_rows_one_line. }
  assert (Hkind : Forall known_kind l).
  { eapply Permutation_Forall; [symmetry; apply order_by_perm|].
    apply monitor_rows_known_kind. }
  destruct (groups_partition l) as (_ & _ & Hne).
  rewrite organize_groups.
  pose proof (groups_one_line l Hline) as H1.
  pose proof (groups_known_kind l Hkind) as H2.
  rewrite Forall_forall in *. intros e He.
  destruct (H1 e He) as [Hk Hf]. destruct (Hne e He) as [Hn _].
  rewrite count_course_block by auto.
  pose proof (known_kind_shown (snd e) Hn (H2 e He)).
  rewrite !length_firstn in *. lia.
Qed.

Lemma summary_blocks_have_entries_witness :
  Forall (fun e =>
            (1 <= count_entries (course_block sample_config e) <= 10)%nat)
    (organize
       (get_media_files None
          (media_files (run_monitor seven_videos empty_state)))).
Proof.
  apply (summary_blocks_have_entries sample_config seven_videos).
  apply no_newline_forallb; reflexivity.
Defined.

(** ** The kind listings: text *)

Lemma listing_eq (config : Config) (header : str) (files : list row) :
  listing config header files =
  header ++ concat (List.map (listing_item config) files).
Proof. apply (fold_left_append (listing_item config)). Qed.

Lemma count_listing_item (config : Config) (f : row) (rest : str) :
  no_newline (CHANNEL_USERNAME config) ->
  no_newline (title f) -> no_newline (course f) ->
  count_entries_from true (listing_item config f ++ rest) =
  S (count_entries_from true rest).
Proof.
  intros Hc Ht Hk. unfold listing_item.
  replace ((entry_line config f ++ lit "  Course: " ++ course f ++ NL ++ NL)
           ++ rest)
    with (entry_line config f
          ++ ((lit "  Course: " ++ course f) ++ nl :: ([] ++ nl :: rest)))
    by (unfold NL; repeat rewrite <- app_assoc; reflexivity).
  rewrite count_entry_line by auto.
  rewrite count_other_line.
  - rewrite count_other_line; [reflexivity | constructor | reflexivity].
  - apply no_newline_app. split; auto.
    apply no_newline_forallb; reflexivity.
  - reflexivity.
Qed.

Lemma count_listing_items (config : Config) (files : list row) :
  no_newline (CHANNEL_USERNAME config) ->
  Forall (fun r => no_newline (title r) /\ no_newline (course r)) files ->
  count_entries_from true (concat (List.map (listing_item config) files)) =
  length files.
Proof.
  intros Hc. induction 1 as [|f files [Ht Hk] _ IH]; [reflexivity|].
  cbn [List.map concat length].
  rewrite count_listing_item, IH; auto.
Qed.

Lemma count_listing (config : Config) (hline : str) (files : list row) :
  no_newline (CHANNEL_USERNAME config) ->
  Forall (fun r => no_newline (title r) /\ no_newline (course r)) files ->
  no_newline hline ->
  (forall tail, strip_prefix (bullet ++ lit " [") (hline ++ tail) = None) ->
  count_entries (listing config (hline ++ NL ++ NL) files) = length files.
Proof.
  intros Hc Hf Hh Hp. unfold count_entries. rewrite listing_eq.
  replace ((hline ++ NL ++ NL)
           ++ concat (List.map (listing_item config) files))
    with (hline ++ nl
            :: ([] ++ nl :: concat (List.map (listing_item config) files)))
    by (unfold NL; repeat rewrite <- app_assoc; reflexivity).
  rewrite count_other_line; auto.
  rewrite count_other_line; [|constructor|reflexivity].
  apply count_listing_items; auto.
Qed.

Lemma one_line_rows_ok (t : table) :
  one_line_rows t = true ->
  Forall (fun r => no_newline (title r) /\ no_newline (course r)) t.
Proof.
  unfold one_line_rows. rewrite forallb_forall, Forall_forall.
  intros H r Hr. specialize (H r Hr). apply andb_true_iff in H.
  split; apply no_newline_forallb; tauto.
Qed.

(** X17: the kind listings have no cap: the text is the header followed, for
    every row of the listing, by its entry line, its course line and an
    empty line; counted in the text, when titles, courses and the channel
    name are of one line, there are as many entry lines as the table has
    rows of the kind. *)
Theorem kind_listing_shows_every_row (config : Config) (t : table) :
  no_newline (CHANNEL_USERNAME config) ->
  Forall (fun r => no_newline (title r) /\ no_newline (course r)) t ->
  (forall header files,
      listing config header files =
      header ++ concat (List.map (listing_item config) files)) /\
  count_entries
    (listing config all_videos_header (get_media_files (Some video_kind) t))
  = length (filter is_video t) /\
  count_entries
    (listing config all_pdfs_header (get_media_files (Some pdf_kind) t))
  = length (filter is_pdf t) /\
  (filter is_video t <> [] ->
   get_videos config (ADMIN_ID config) t =
   [reply_text
      (listing config all_videos_header
         (get_media_files (Some video_kind) t))]) /\
  (filter is_pdf t <> [] ->
   get_pdfs config (ADMIN_ID config) t =
   [reply_text
      (listing config all_pdfs_header (get_media_files (Some pdf_kind) t))]).
Proof.
  intros Hc Ht.
  assert (Pv : Permutation (get_media_files (Some video_kind) t)
                 (filter is_video t)) by apply order_by_perm.
  assert (Pp : Permutation (get_media_files (Some pdf_kind) t)
                 (filter is_pdf t)) by apply order_by_perm.
  split; [apply listing_eq|]. split; [|split; [|split]].
  - rewrite <- (Permutation_length Pv).
    apply (count_listing config ([0xF8FF; 0xFC; 0xE9; 0x2022]
                                 ++ lit " **All Videos**")); auto.
    + eapply Permutation_Forall; [symmetry; exact Pv|].
      apply Forall_filter; exact Ht.
    + apply no_newline_forallb; reflexivity.
  - rewrite <- (Permutation_length Pp).
    apply (count_listing config ([0xF8FF; 0xFC; 0xEC; 0xD1]
                                 ++ lit " **All PDFs**")); auto.
    + eapply Permutation_Forall; [symmetry; exact Pp|].
      apply Forall_filter; exact Ht.
    + apply no_newline_forallb; reflexivity.
  - intros Hne. unfold get_videos. rewrite Z.eqb_refl. cbn [negb].
    destruct (get_media_files (Some video_kind) t) eqn:E; [|reflexivity].
    apply Permutation_nil in Pv. congruence.
  - intros Hne. unfold get_pdfs. rewrite Z.eqb_refl. cbn [negb].
    destruct (get_media_files (Some pdf_kind) t) eqn:E; [|reflexivity].
    apply Permutation_nil in Pp. congruence.
Qed.

Lemma kind_listing_shows_every_row_witness :
  count_entries
    (listing sample_config all_videos_header
       (get_media_files (Some video_kind)
          (media_files (run_monitor seven_videos empty_state))))
  = length (filter is_video
              (media_files (run_monitor seven_videos empty_state))) /\
  length (filter is_video
            (media_files (run_monitor seven_videos empty_state))) = 7%nat.
Proof.
  split; [|vm_compute; reflexivity].
  apply (kind_listing_shows_every_row sample_config
           (media_files (run_monitor seven_videos empty_state))).
  - apply no_newline_forallb; reflexivity.
  - apply one_line_rows_ok. vm_compute; reflexivity.
Defined.

(** ** The summary: the whole text *)

Lemma count_course_block_app (config : Config) (e : str * list row)
    (rest : str) :
  no_newline (CHANNEL_USERNAME config) ->
  no_newline (fst e) ->
  Forall (fun f => no_newline (title f)) (snd e) ->
  count_entries_from true (course_block config e ++ rest) =
  (shown_entries e + count_entries_from true rest)%nat.
Proof.
  intros Hc Hk Hf. rewrite course_block_eq. unfold shown_entries.
  replace ((lit "**" ++ fst e ++ lit "**" ++ NL
            ++ section config videos_header
                 (firstn 5 (filter is_video (snd e)))
            ++ section config pdfs_header (firstn 5 (filter is_pdf (snd e)))
            ++ NL) ++ rest)
    with ((lit "**" ++ fst e ++ lit "**") ++ nl
            :: (section config videos_header
                  (firstn 5 (filter is_video (snd e)))
                ++ section config pdfs_header
                     (firstn 5 (filter is_pdf (snd e)))
                ++ [] ++ nl :: rest))
    by (unfold NL; repeat rewrite <- app_assoc; reflexivity).
  rewrite count_other_line.
  - rewrite count_videos_section, count_pdfs_section
      by auto using Forall_firstn, Forall_filter.
    rewrite count_other_line; [lia | constructor | reflexivity].
  - repeat (apply no_newline_app; split); auto;
      apply no_newline_forallb; reflexivity.
  - reflexivity.
Qed.

Lemma count_course_blocks (config : Config) (d : dict) :
  no_newline (CHANNEL_USERNAME config) ->
  Forall (fun e => no_newline (fst e) /\
                   Forall (fun f => no_newline (title f)) (snd e)) d ->
  count_entries_from true (concat (List.map (course_block config) d)) =
  list_sum (List.map shown_entries d).
Proof.
  intros Hc. induction 1 as [|e d [Hk Hf] _ IH]; [reflexivity|].
  cbn [List.map concat list_sum].
  rewrite count_course_block_app, IH; auto.
Qed.

Lemma shown_entries_bounds (e : str * list row) :
  (shown_entries e <= 10)%nat /\ (shown_entries e <= length (snd e))%nat.
Proof.
  unfold shown_entries. rewrite !length_firstn. split; [lia|].
  assert (H : (length (filter is_video (snd e))
               + length (filter is_pdf (snd e)) <= length (snd e))%nat).
  { induction (snd e) as [|r l IH]; simpl; [lia|].
    unfold is_video at 1, is_pdf at 1.
    destruct (str_eqb (file_type r) video_kind) eqn:Ev.
    - apply str_eqb_eq in Ev. rewrite Ev. simpl. lia.
    - destruct (str_eqb (file_type r) pdf_kind); simpl; lia. }
  lia.
Qed.

Lemma list_sum_le (f g : str * list row -> nat) (d : dict) :
  (forall e, (f e <= g e)%nat) ->
  (list_sum (List.map f d) <= list_sum (List.map g d))%nat.
Proof.
  intros H. induction d as [|e d IH]; simpl; [lia|].
  specialize (H e). lia.
Qed.

Lemma length_concat_groups (d : dict) :
  length (concat (List.map snd d)) =
  list_sum (List.map (fun e => length (snd e)) d).
Proof.
  induction d as [|e d IH]; simpl; auto. rewrite length_app, IH. reflexivity.
Qed.

Lemma list_sum_const (n : nat) (d : dict) :
  list_sum (List.map (fun _ => n) d) = (n * length d)%nat.
Proof. induction d as [|e d IH]; simpl; lia. Qed.

(** X18: the number of entry lines in the whole summary, when titles, courses
    and the channel name are of one line: it is the sum, over the courses,
    of the entries each block shows, so at most ten per course and at most
    the number of rows loaded. *)
Theorem summary_entry_total (config : Config) (media_files : list row) :
  no_newline (CHANNEL_USERNAME config) ->
  Forall (fun r => no_newline (title r) /\ no_newline (course r))
    media_files ->
  count_entries (summary_text config media_files) =
  list_sum (List.map shown_entries (organize media_files)) /\
  (count_entries (summary_text config media_files)
   <= 10 * length (first_seen (List.map course media_files)))%nat /\
  (count_entries (summary_text config media_files)
   <= length media_files)%nat.
Proof.
  intros Hc Hl.
  assert (E : count_entries (summary_text config media_files) =
              list_sum (List.map shown_entries (organize media_files))).
  { unfold count_entries. rewrite summary_text_eq.
    unfold summary_header.
    replace (([0xF8FF; 0xFC; 0xEC; 0xF6]
              ++ lit " **Course Materials Summary**" ++ NL ++ NL)
             ++ concat (List.map (course_block config)
                          (organize media_files)))
      with (([0xF8FF; 0xFC; 0xEC; 0xF6]
             ++ lit " **Course Materials Summary**")
            ++ nl :: ([] ++ nl
                        :: concat (List.map (course_block config)
                                     (organize media_files))))
      by (unfold NL; repeat rewrite <- app_assoc; reflexivity).
    rewrite count_other_line;
      [|apply no_newline_forallb; reflexivity | reflexivity].
    rewrite count_other_line; [|constructor | reflexivity].
    apply count_course_blocks; auto.
    rewrite organize_groups. apply groups_one_line; exact Hl. }
  rewrite E. split; [reflexivity|]. split.
  - replace (length (first_seen (List.map course media_files)))
      with (length (organize media_files)).
    + rewrite <- list_sum_const. apply list_sum_le.
      intros e. apply shown_entries_bounds.
    + rewrite organize_groups. unfold groups. apply length_map.
  - destruct (groups_partition media_files) as (P & _ & _).
    rewrite <- organize_groups in P.
    rewrite <- (Permutation_length P), length_concat_groups.
    apply list_sum_le. intros e. apply shown_entries_bounds.
Qed.

Lemma summary_entry_total_witness :
  count_entries
    (summary_text sample_config
       (media_files (run_monitor seven_videos empty_state))) = 5%nat.
Proof.
  destruct (summary_entry_total sample_config
              (media_files (run_monitor seven_videos empty_state)))
    as (E & _ & _).
  - apply no_newline_forallb; reflexivity.
  - apply one_line_rows_ok. vm_compute; reflexivity.
  - rewrite E. vm_compute. reflexivity.
Defined.

(** ** A marker with nothing but whitespace behind it *)

Lemma spaces_then_capture_None_iff (rest : str) :
  spaces_then_capture rest = None <-> Forall (fun c => c = nl) rest.
Proof.
  induction rest as [|c rest IH]; cbn [spaces_then_capture].
  - split; [constructor | reflexivity].
  - assert (Hcap : capture_line (c :: rest) = None <-> c = nl).
    { unfold capture_line, not_nl. cbn [take_while].
      destruct (N.eqb_spec c nl) as [->|Hc]; simpl.
      - split; auto.
      - split; [discriminate | contradiction]. }
    destruct (isspace c) eqn:Hsp.
    + destruct (spaces_then_capture rest) as [g|] eqn:E.
      * split; [discriminate|]. intros H. apply Forall_inv_tail in H.
        apply IH in H. discriminate.
      * rewrite Hcap. split.
        -- intros ->. constructor; auto. apply IH; reflexivity.
        -- intros H. apply Forall_inv in H. exact H.
    + rewrite Hcap. split.
      * intros ->. rewrite nl_isspace in Hsp. discriminate.
      * intros H. apply Forall_inv in H. exact H.
Qed.

Lemma existsb_not_nl_false (s : str) :
  existsb not_nl s = false <-> Forall (fun c => c = nl) s.
Proof.
  induction s as [|c s IH]; simpl.
  - split; [constructor | reflexivity].
  - unfold not_nl at 1. destruct (N.eqb_spec c nl) as [->|Hc]; simpl.
    + rewrite IH. split; [constructor; auto | apply Forall_inv_tail].
    + split; [discriminate|]. intros H. apply Forall_inv in H. contradiction.
Qed.

Lemma Forall_skipn {A : Type} (P : A -> Prop) (n : nat) (l : list A) :
  Forall P l -> Forall P (skipn n l).
Proof.
  intros H. rewrite Forall_forall in *. intros x Hx. apply H.
  eapply in_skipn; eauto.
Qed.

(** The search behind a first occurrence that only whitespace follows: the
    group is whitespace when a character other than a newline follows, and
    there is no match when only newlines follow, or nothing. *)
Lemma re_search_blank_value (m s : str) (i : nat) :
  index_of m s = Some i ->
  forallb isspace (skipn (i + length m) s) = true ->
  option_map strip (re_search m s) =
  if existsb not_nl (skipn (i + length m) s) then Some [] else None.
Proof.
  intros Ei Hb.
  assert (Hblank : blank_after m s = true)
    by (unfold blank_after; rewrite Ei; exact Hb).
  destruct (existsb not_nl (skipn (i + length m) s)) eqn:Ex.
  - destruct (spaces_then_capture (skipn (i + length m) s)) as [g|] eqn:Eg.
    + rewrite (index_of_Some_search _ _ _ _ Ei Eg). simpl. f_equal.
      apply strip_all_space. eapply re_search_blank; eauto.
      eapply index_of_Some_search; eauto.
    + apply spaces_then_capture_None_iff in Eg.
      apply existsb_not_nl_false in Eg. congruence.
  - apply existsb_not_nl_false in Ex.
    destruct (re_search m s) as [g|] eqn:Es; [|reflexivity].
    exfalso. apply re_search_Some in Es. destruct Es as (j & Hj & Hg).
    pose proof (index_of_least _ _ _ _ Ei Hj) as Hle.
    replace (j + length m)%nat with ((j - i) + (i + length m))%nat in Hg
      by lia.
    rewrite <- skipn_skipn in Hg.
    assert (Hn : spaces_then_capture
                   (skipn (j - i) (skipn (i + length m) s)) = None).
    { apply spaces_then_capture_None_iff. apply Forall_skipn. exact Ex. }
    congruence.
Qed.

(** X4: when nothing but whitespace follows the first course marker up to the
    end of the caption, the course is the empty string if one of those
    characters is not a newline, and [Unknown] if they all are or there is
    none; the same holds of the attribution. *)
Theorem blank_field_values (caption : str) :
  (blank_after course_marker caption = true ->
   extract_course caption =
   match index_of course_marker caption with
   | Some i =>
       if existsb not_nl (skipn (i + length course_marker) caption)
       then [] else Unknown
   | None => Unknown
   end) /\
  (blank_after extracted_marker caption = true ->
   extract_extracted_by caption =
   match index_of extracted_marker caption with
   | Some i =>
       if existsb not_nl (skipn (i + length extracted_marker) caption)
       then [] else Unknown
   | None => Unknown
   end).
Proof.
  assert (G : forall m,
             blank_after m caption = true ->
             match re_search m caption with
             | Some g => strip g
             | None => Unknown
             end =
             match index_of m caption with
             | Some i =>
                 if existsb not_nl (skipn (i + length m) caption)
                 then [] else Unknown
             | None => Unknown
             end).
  { intros m Hb. unfold blank_after in Hb.
    destruct (index_of m caption) as [i|] eqn:Ei.
    - pose proof (re_search_blank_value _ _ _ Ei Hb) as H.
      destruct (existsb not_nl (skipn (i + length m) caption));
        destruct (re_search m caption); simpl in H; congruence.
    - rewrite (index_of_None_search _ _ Ei). reflexivity. }
  split; intros H; [apply (G course_marker H) | apply (G extracted_marker H)].
Qed.

Lemma blank_field_values_witness :
  extract_course (course_marker ++ lit "   ") = [] /\
  extract_extracted_by (extracted_marker ++ NL ++ NL) = Unknown.
Proof.
  split.
  - rewrite (proj1 (blank_field_values (course_marker ++ lit "   ")));
      vm_compute; reflexivity.
  - rewrite (proj2 (blank_field_values (extracted_marker ++ NL ++ NL)));
      vm_compute; reflexivity.
Defined.

(** ** Storing, then listing *)

Lemma order_by_snoc (l : list row) (r : row) :
  order_by_timestamp_desc (l ++ [r]) =
  insert_desc r (order_by_timestamp_desc l).
Proof. unfold order_by_timestamp_desc. rewrite fold_left_app. reflexivity. Qed.

Lemma insert_desc_newest (r : row) (l : list row) :
  Forall (fun x => (timestamp x < timestamp r)%Z) l ->
  insert_desc r l = r :: l.
Proof.
  destruct l as [|x l]; [reflexivity|]. intros H. apply Forall_inv in H.
  cbn [insert_desc]. apply Z.ltb_lt in H. rewrite H. reflexivity.
Qed.

Lemma order_by_snoc_newest (l : list row) (r : row) :
  Forall (fun x => (timestamp x < timestamp r)%Z) l ->
  order_by_timestamp_desc (l ++ [r]) = r :: order_by_timestamp_desc l.
Proof.
  intros H. rewrite order_by_snoc. apply insert_desc_newest.
  eapply Permutation_Forall; [symmetry; apply order_by_perm | exact H].
Qed.

(** X10: a record stored when the clock is ahead of every timestamp in the table
    comes first in the full listing and in the listing of its kind, in
    front of what these listings were; the listing of any other kind is as
    it was. *)
Theorem stored_row_is_listed_first (now : Z) (message : Message)
    (st : state) :
  has_payload message = true ->
  yields_title (caption_or_empty message) ->
  Forall (fun x => (timestamp x < now)%Z) (media_files st) ->
  exists r,
    stems_from r now message /\
    media_files (process_channel_message now message st) =
      media_files st ++ [r] /\
    get_media_files None
      (media_files (process_channel_message now message st)) =
      r :: get_media_files None (media_files st) /\
    get_media_files (Some (file_type r))
      (media_files (process_channel_message now message st)) =
      r :: get_media_files (Some (file_type r)) (media_files st) /\
    forall kind, kind <> [] -> kind <> file_type r ->
      get_media_files (Some kind)
        (media_files (process_channel_message now message st)) =
      get_media_files (Some kind) (media_files st).
Proof.
  intros Hp (t & Et & Hne) Hnow.
  destruct (process_outcomes now message st) as [E|(r & Hs & _ & E)].
  - exfalso. pose proof (process_stores now message st t Hp Et Hne) as E'.
    rewrite E in E'. apply (f_equal media_files) in E'. cbn in E'.
    eapply list_neq_snoc; eauto.
  - exists r. rewrite E. cbn [media_files].
    assert (Hts : timestamp r = now) by (destruct Hs; tauto).
    assert (Hk : file_type r <> []).
    { destruct Hs as (_ & _ & _ & _ & _ & _ & _ & Hft & _). rewrite Hft.
      destruct (is_some (video message)); discriminate. }
    rewrite <- Hts in Hnow.
    split; [exact Hs|]. split; [reflexivity|]. split; [|split].
    + apply order_by_snoc_newest; exact Hnow.
    + unfold get_media_files. apply truthy_true in Hk. rewrite Hk.
      rewrite filter_app. cbn [filter]. rewrite str_eqb_refl.
      apply order_by_snoc_newest. apply Forall_filter; exact Hnow.
    + intros kind Hkind Hother. unfold get_media_files.
      apply truthy_true in Hkind. rewrite Hkind.
      rewrite filter_app. cbn [filter].
      assert (Ef : str_eqb (file_type r) kind = false)
        by (apply str_eqb_neq; congruence).
      rewrite Ef, app_nil_r. reflexivity.
Qed.

Lemma stored_row_is_listed_first_witness :
  exists r,
    get_media_files None
      (media_files
         (process_channel_message 9 (video_message marked_caption)
            (run_monitor two_messages empty_state))) =
    r :: get_media_files None
           (media_files (run_monitor two_messages empty_state)).
Proof.
  destruct (stored_row_is_listed_first 9 (video_message marked_caption)
              (run_monitor two_messages empty_state))
    as (r & _ & _ & H & _).
  - reflexivity.
  - exists (lit "Intro to Graphs"). split; [vm_compute; reflexivity|].
    discriminate.
  - vm_compute. repeat constructor.
  - exists r. exact H.
Defined.
